(** * Rotating log file writer (package logger, logfile.go)

    A shallow embedding of [LogFile] and its methods [fileNamePattern],
    [openNew], [rotate], [pruneFiles] and [Write], together with the parts
    of the Go standard library they call (path/filepath, strings, fmt, time,
    os), and the properties of the writer established over it. *)

From Stdlib Require Import ZArith List String Ascii Bool Lia Arith.
Import ListNotations.
Open Scope string_scope.

(** ** Go strings *)

Module GoStrings.

(** [strings.HasSuffix(s, suffix)]:
    [len(s) >= len(suffix) && s[len(s)-len(suffix):] == suffix]. *)
Definition HasSuffix (s suffix : string) : bool :=
  (String.length suffix <=? String.length s)%nat &&
  (substring (String.length s - String.length suffix)
             (String.length suffix) s =? suffix).

(** [strings.TrimSuffix(s, suffix)]. *)
Definition TrimSuffix (s suffix : string) : string :=
  if HasSuffix s suffix
  then substring 0 (String.length s - String.length suffix) s
  else s.

(** [strings.Join(elems, sep)]. *)
Fixpoint Join (elems : list string) (sep : string) : string :=
  match elems with
  | [] => ""
  | [e] => e
  | e :: rest => e ++ sep ++ Join rest sep
  end.

(** Splitting at every occurrence of a byte; the pieces are returned in
    order, empty pieces included. *)
Fixpoint split_at (c : ascii) (s : string) : list string :=
  match s with
  | EmptyString => [""]
  | String a s' =>
      if Ascii.eqb a c then "" :: split_at c s'
      else match split_at c s' with
           | [] => [String a ""]
           | p :: ps => String a p :: ps
           end
  end.

(** Whether a byte occurs in a string. *)
Fixpoint contains_byte (c : ascii) (s : string) : bool :=
  match s with
  | EmptyString => false
  | String a s' => Ascii.eqb a c || contains_byte c s'
  end.

End GoStrings.

(** ** path/filepath (Unix flavour: the separator is '/') *)

Module filepath.
Import GoStrings.

Definition Separator : ascii := "/"%char.

(** [Ext]: the loop runs from the last byte towards the first, stops at a
    separator, and returns the suffix that starts at the first dot met.
    [scan_ext rev_prefix acc] has the bytes still to visit, last first, and
    the bytes already passed. *)
Fixpoint scan_ext (rev_prefix : list ascii) (acc : list ascii) : list ascii :=
  match rev_prefix with
  | [] => []
  | c :: before =>
      if Ascii.eqb c Separator then []
      else if Ascii.eqb c "."%char then c :: acc
      else scan_ext before (c :: acc)
  end.

Definition Ext (path : string) : string :=
  string_of_list_ascii (scan_ext (rev (list_ascii_of_string path)) []).

(** [Clean], on the components of the path: empty components and "." are
    dropped, ".." removes the component before it when there is one that is
    not itself "..", is dropped at the root, and is kept otherwise.
    [out] holds the components kept so far, last first. *)
Fixpoint clean_components (rooted : bool) (comps : list string)
         (out : list string) : list string :=
  match comps with
  | [] => rev out
  | c :: rest =>
      if (c =? "") || (c =? ".") then clean_components rooted rest out
      else if c =? ".." then
        match out with
        | prev :: out' =>
            if prev =? ".." then clean_components rooted rest (c :: out)
            else clean_components rooted rest out'
        | [] =>
            if rooted then clean_components rooted rest out
            else clean_components rooted rest (c :: out)
        end
      else clean_components rooted rest (c :: out)
  end.

Definition Clean (path : string) : string :=
  match path with
  | EmptyString => "."
  | String c _ =>
      let rooted := Ascii.eqb c Separator in
      let body := Join (clean_components rooted (split_at Separator path) []) "/" in
      if rooted then "/" ++ body
      else if body =? "" then "." else body
  end.

(** [Join] of two elements: empty elements are ignored, the rest is joined
    with the separator and cleaned; all empty gives the empty string. *)
Definition Join2 (a b : string) : string :=
  match a =? "", b =? "" with
  | true, true => ""
  | true, false => Clean b
  | false, true => Clean a
  | false, false => Clean (a ++ "/" ++ b)
  end.

(** [Dir]: everything up to and including the last separator, cleaned. *)
Fixpoint upto_last_sep (s : string) : string :=
  match s with
  | EmptyString => ""
  | String c s' =>
      if contains_byte Separator s then String c (upto_last_sep s')
      else ""
  end.

Definition Dir (path : string) : string := Clean (upto_last_sep path).

End filepath.

(** ** fmt.Sprintf with one string operand *)

Module fmt.

(** What [Sprintf] appends for an operand that no directive consumed. *)
Definition extra (arg : string) : string := "%!(EXTRA string=" ++ arg ++ ")".

Definition is_flag_or_width (c : ascii) : bool :=
  existsb (Ascii.eqb c)
    (list_ascii_of_string "#0+- 123456789.[*").

(** [Sprintf1 other format arg used]: the output of
    [fmt.Sprintf(format, arg)] for a string [arg]; [used] says whether a
    directive has consumed the operand already.  Bytes other than '%' are
    copied.  After '%': nothing gives %!(NOVERB); '%' gives a percent sign
    and consumes nothing; the verbs s and v print the operand, T prints its
    type, and any other plain verb is a bad verb for a string and prints
    %!verb(string=operand); a verb met when the operand is used up prints
    %!verb(MISSING).  Directives with flags, a width, a precision or an
    argument index, the verbs q, x and X and verbs outside ASCII are not
    interpreted here: [other used rest arg] stands for what Go prints for
    the format from such a directive on. *)
Fixpoint Sprintf1 (other : bool -> string -> string -> string)
         (format arg : string) (used : bool) : string :=
  match format with
  | EmptyString => if used then "" else extra arg
  | String c rest =>
      if negb (Ascii.eqb c "%"%char) then String c (Sprintf1 other rest arg used)
      else
        match rest with
        | EmptyString => "%!(NOVERB)" ++ (if used then "" else extra arg)
        | String verb rest' =>
            if Ascii.eqb verb "%"%char then
              String "%"%char (Sprintf1 other rest' arg used)
            else if is_flag_or_width verb
                    || existsb (Ascii.eqb verb) (list_ascii_of_string "qxX")
                    || (128 <=? nat_of_ascii verb)%nat
            then other used rest arg
            else if used then
              "%!" ++ String verb "(MISSING)" ++ Sprintf1 other rest' arg true
            else if Ascii.eqb verb "s"%char || Ascii.eqb verb "v"%char then
              arg ++ Sprintf1 other rest' arg true
            else if Ascii.eqb verb "T"%char then
              "string" ++ Sprintf1 other rest' arg true
            else
              "%!" ++ String verb ("(string=" ++ arg ++ ")")
                   ++ Sprintf1 other rest' arg true
        end
  end.

Definition Sprintf (other : bool -> string -> string -> string)
           (format arg : string) : string :=
  Sprintf1 other format arg false.

End fmt.

(** ** time *)

Module time.
Local Open Scope Z_scope.

(** An instant is a number of nanoseconds since the Unix epoch; a
    [Duration] is an int64 number of nanoseconds. *)
Definition Time := Z.
Definition Duration := Z.

Definition minDuration : Z := - 2 ^ 63.
Definition maxDuration : Z := 2 ^ 63 - 1.

Definition Nanosecond : Duration := 1.
Definition Second : Duration := 1000000000.
Definition Hour : Duration := 3600 * Second.

(** [t.Sub(u)]: the difference, saturated to the range of [Duration]. *)
Definition Sub (t u : Time) : Duration :=
  let d := t - u in
  if d <? minDuration then minDuration
  else if maxDuration <? d then maxDuration
  else d.

(** [t.Unix()]: whole seconds since the epoch. *)
Definition Unix (t : Time) : Z := t / Second.

(** [time.Unix(sec, 0)]. *)
Definition of_Unix (sec : Z) : Time := sec * Second.

(** Proleptic Gregorian date of a day count since 1970-01-01. *)
Definition civil_of_days (days : Z) : Z * Z * Z :=
  let z := days + 719468 in
  let era := z / 146097 in
  let doe := z - era * 146097 in
  let yoe := (doe - doe / 1460 + doe / 36524 - doe / 146096) / 365 in
  let doy := doe - (365 * yoe + yoe / 4 - yoe / 100) in
  let mp := (5 * doy + 2) / 153 in
  let d := doy - (153 * mp + 2) / 5 + 1 in
  let m := if mp <? 10 then mp + 3 else mp - 9 in
  let y := yoe + era * 400 + (if m <=? 2 then 1 else 0) in
  (y, m, d).

Definition digit (n : Z) : ascii := ascii_of_nat (48 + Z.to_nat (n mod 10)).

(** Decimal digits of a non-negative number, at least [width] of them. *)
Fixpoint digits (width : nat) (n : Z) (fuel : nat) (acc : string) : string :=
  match fuel with
  | O => acc
  | S fuel' =>
      let acc' := String (digit n) acc in
      let width' := Nat.pred width in
      if (n / 10 =? 0) && (width' =? 0)%nat then acc'
      else digits width' (n / 10) fuel' acc'
  end.

(** [appendInt(b, x, width)]: a minus sign for a negative number, then its
    digits padded with zeros to [width]. *)
Definition appendInt (x : Z) (width : nat) : string :=
  let u := Z.abs x in
  let s := digits width u (width + Z.to_nat (Z.log2 u) + 1)%nat "" in
  if x <? 0 then String "-"%char s else s.

(** [t.Format("20060102150405")] for a [t] whose location has the offset
    [offset] (seconds east of UTC) at that moment. *)
Definition Format_stamp (offset : Z) (t : Time) : string :=
  let local := Unix t + offset in
  let '(y, m, d) := civil_of_days (local / 86400) in
  let sod := local mod 86400 in
  appendInt y 4 ++ appendInt m 2 ++ appendInt d 2
    ++ appendInt (sod / 3600) 2 ++ appendInt (sod mod 3600 / 60) 2
    ++ appendInt (sod mod 60) 2.

End time.

(** ** Machine integers *)

(** The value of an [int64] (and of an [int], 64 bits wide) after an
    arithmetic operation: the result wraps around. *)
Definition wrap64 (z : Z) : Z := ((z + 2 ^ 63) mod 2 ^ 64 - 2 ^ 63)%Z.

Definition in_int64 (z : Z) : Prop := (- 2 ^ 63 <= z < 2 ^ 63)%Z.

(** ** The operating system, as the writer sees it *)

Module os.

(** Go [error] values that the writer can meet. *)
Inductive error : Type :=
| ErrInvalid                 (* os.ErrInvalid: a method called on a nil *os.File *)
| ErrBadPattern              (* filepath.ErrBadPattern *)
| SkipDir                    (* filepath.SkipDir *)
| Errno (code : nat).        (* an error reported by the operating system *)

Definition is_SkipDir (e : error) : bool :=
  match e with SkipDir => true | _ => false end.

(** An open [*os.File]. *)
Definition File := nat.

(** [os.FileInfo], as far as it is consulted. *)
Record FileInfo : Type := mkFileInfo {
  Name : string;
  IsDir : bool;
  ModTime : time.Time
}.

(** What a walk finds below a path: a file, a directory with the outcome of
    reading its (sorted) entries, or a name whose [Lstat] fails. *)
#[warnings="-register-all"] Inductive node : Type :=
| NFile (name : string) (modTime : time.Time)
| NDir (name : string) (modTime : time.Time) (entries : list node + error)
| NLstatErr (name : string) (err : error).

Definition node_name (n : node) : string :=
  match n with
  | NFile name _ | NDir name _ _ | NLstatErr name _ => name
  end.

Definition node_info (n : node) : option FileInfo :=
  match n with
  | NFile name mt => Some (mkFileInfo name false mt)
  | NDir name mt _ => Some (mkFileInfo name true mt)
  | NLstatErr _ _ => None
  end.

(** System calls made, in order, with what they returned. *)
Inductive event : Type :=
| EvLock
| EvUnlock
| EvOpenFile (path : string) (res : File + error)
| EvClose (f : File) (res : option error)
| EvRename (oldpath newpath : string) (res : option error)
| EvRemove (path : string) (res : option error)
| EvWalk (root : string)
| EvGlob (pattern : string)
| EvWrite (f : File) (b : list Byte.byte) (n : nat) (res : option error).

(** The behaviour of the environment.  Every field indexed by a [nat] is
    asked at the number of the call being made, so that an answer may depend
    on everything that happened before. *)
Record Env : Type := mkEnv {
  (* nanoseconds that pass before the clock is read *)
  elapse : nat -> N;
  (* offset of the local time zone, in seconds east of UTC, at a Unix time *)
  zone : Z -> Z;
  (* fmt directives that [fmt.Sprintf1] leaves to its parameter *)
  fmt_other : bool -> string -> string -> string;
  open_result : nat -> string -> File + error;
  close_result : nat -> File -> option error;
  rename_result : nat -> string -> string -> option error;
  remove_result : nat -> string -> option error;
  (* a short write: the bytes that got through and the error; None: all written *)
  write_result : nat -> File -> list Byte.byte -> option (nat * error);
  lstat_tree : nat -> string -> node;
  glob_result : nat -> string -> list string + error
}.

Record World : Type := mkWorld {
  env : Env;
  calls : nat;            (* number of calls made so far *)
  clock : time.Time;      (* the last reading of the clock *)
  trace : list event      (* the calls made so far, oldest first *)
}.

(** The world after a call that is recorded. *)
Definition emit (w : World) (evs : list event) : World :=
  mkWorld (env w) (S (calls w)) (clock w) (trace w ++ evs).

(** The world after the clock was read as [t]. *)
Definition tick (w : World) (t : time.Time) : World :=
  mkWorld (env w) (S (calls w)) t (trace w).

End os.

Import os.

(** ** The writer *)

(** [LogFile].  The filter is the decision of [logutils.LevelFilter.Check];
    the mutex [acquire] is represented by the [EvLock] and [EvUnlock] events
    of the trace, calls being taken one at a time. *)
Record LogFile : Type := mkLogFile {
  logFilter : list Byte.byte -> bool;
  fileName : string;
  fullName : string;
  rotateName : string;
  logPath : string;
  duration : time.Duration;
  LastCreated : time.Time;
  FileInfo : option File;
  MaxBytes : Z;
  BytesWritten : Z;
  MaxFiles : Z
}.

Definition set_fullName (l : LogFile) (v : string) : LogFile :=
  mkLogFile (logFilter l) (fileName l) v (rotateName l) (logPath l)
    (duration l) (LastCreated l) (FileInfo l) (MaxBytes l) (BytesWritten l)
    (MaxFiles l).

Definition set_rotateName (l : LogFile) (v : string) : LogFile :=
  mkLogFile (logFilter l) (fileName l) (fullName l) v (logPath l)
    (duration l) (LastCreated l) (FileInfo l) (MaxBytes l) (BytesWritten l)
    (MaxFiles l).

Definition set_LastCreated (l : LogFile) (v : time.Time) : LogFile :=
  mkLogFile (logFilter l) (fileName l) (fullName l) (rotateName l) (logPath l)
    (duration l) v (FileInfo l) (MaxBytes l) (BytesWritten l) (MaxFiles l).

Definition set_FileInfo (l : LogFile) (v : option File) : LogFile :=
  mkLogFile (logFilter l) (fileName l) (fullName l) (rotateName l) (logPath l)
    (duration l) (LastCreated l) v (MaxBytes l) (BytesWritten l) (MaxFiles l).

Definition set_BytesWritten (l : LogFile) (v : Z) : LogFile :=
  mkLogFile (logFilter l) (fileName l) (fullName l) (rotateName l) (logPath l)
    (duration l) (LastCreated l) (FileInfo l) (MaxBytes l) v (MaxFiles l).

Definition set_duration (l : LogFile) (v : time.Duration) : LogFile :=
  mkLogFile (logFilter l) (fileName l) (fullName l) (rotateName l) (logPath l)
    v (LastCreated l) (FileInfo l) (MaxBytes l) (BytesWritten l) (MaxFiles l).

Definition set_MaxFiles (l : LogFile) (v : Z) : LogFile :=
  mkLogFile (logFilter l) (fileName l) (fullName l) (rotateName l) (logPath l)
    (duration l) (LastCreated l) (FileInfo l) (MaxBytes l) (BytesWritten l) v.

(** *** A state monad over the writer and the world *)

Definition M (A : Type) : Type := LogFile * World -> A * (LogFile * World).

Definition ret {A} (a : A) : M A := fun s => (a, s).

Definition bind {A B} (m : M A) (k : A -> M B) : M B :=
  fun s => let (a, s') := m s in k a s'.

Declare Scope go_scope.
Delimit Scope go_scope with go.
Notation "x <- m ;; k" := (bind m (fun x => k))
  (at level 61, m at next level, right associativity) : go_scope.
Notation "m ;;; k" := (bind m (fun _ => k))
  (at level 61, right associativity) : go_scope.
Open Scope go_scope.

Definition self : M LogFile := fun s => (fst s, s).

Definition update (f : LogFile -> LogFile) : M unit :=
  fun s => (tt, (f (fst s), snd s)).

Definition the_env : M Env := fun s => (env (snd s), s).

(** A call that answers from the environment and is recorded. *)
Definition syscall {A} (answer : Env -> nat -> A) (ev : A -> list event) : M A :=
  fun s =>
    let w := snd s in
    let a := answer (env w) (calls w) in
    (a, (fst s, emit w (ev a))).

(** [time.Now()], which is also the value of the package variable [now]. *)
Definition now : M time.Time :=
  fun s =>
    let w := snd s in
    let t := (clock w + Z.of_N (elapse (env w) (calls w)))%Z in
    (t, (fst s, tick w t)).

(** [time.Since(t)]. *)
Definition Since (t : time.Time) : M time.Duration :=
  n <- now ;; ret (time.Sub n t).

Definition Lock : M unit := fun s => (tt, (fst s, emit (snd s) [EvLock])).
Definition Unlock : M unit := fun s => (tt, (fst s, emit (snd s) [EvUnlock])).

Definition OpenFile (path : string) : M (File + error) :=
  syscall (fun e k => open_result e k path) (fun r => [EvOpenFile path r]).

(** Methods of [*os.File] give [ErrInvalid] on a nil receiver. *)
Definition Close (f : option File) : M (option error) :=
  match f with
  | None => ret (Some ErrInvalid)
  | Some h => syscall (fun e k => close_result e k h) (fun r => [EvClose h r])
  end.

Definition Rename (oldpath newpath : string) : M (option error) :=
  syscall (fun e k => rename_result e k oldpath newpath)
          (fun r => [EvRename oldpath newpath r]).

Definition Remove (path : string) : M (option error) :=
  syscall (fun e k => remove_result e k path) (fun r => [EvRemove path r]).

(** [f.Write(b)]: the number of bytes written, at most [len(b)], and an
    error whenever fewer than that were written. *)
Definition short_write (b : list Byte.byte) (r : option (nat * error))
  : nat * option error :=
  match r with
  | None => (List.length b, None)
  | Some (n, e) => (Nat.min n (List.length b), Some e)
  end.

Definition FileWrite (f : option File) (b : list Byte.byte) : M (Z * option error) :=
  match f with
  | None => ret (0%Z, Some ErrInvalid)
  | Some h =>
      r <- syscall (fun e k => short_write b (write_result e k h b))
                   (fun r => [EvWrite h b (fst r) (snd r)]) ;;
      ret (Z.of_nat (fst r), snd r)
  end.

Definition Glob (pattern : string) : M (list string + error) :=
  syscall (fun e k => glob_result e k pattern) (fun _ => [EvGlob pattern]).

(** [filepath.Walk]: [walk] visits a node whose [Lstat] succeeded.  A file
    is handed to the callback.  For a directory the entries are read, the
    callback is called on the directory itself, and unless either failed the
    entries are visited in order: an error returned for an entry ends the
    walk of this directory and is returned, except [SkipDir] returned for an
    entry that is a directory or whose [Lstat] failed, after which the loop
    goes on. *)
Definition WalkFunc : Type :=
  string -> option os.FileInfo -> option error -> M (option error).

Fixpoint walk (walkFn : WalkFunc) (path : string) (n : node) {struct n}
  : M (option error) :=
  match n with
  | NDir _ _ entries =>
      err1 <- walkFn path (node_info n)
                (match entries with inr e => Some e | inl _ => None end) ;;
      match entries, err1 with
      | inl names, None =>
          (fix loop (names : list node) : M (option error) :=
             match names with
             | [] => ret None
             | c :: rest =>
                 let filename := filepath.Join2 path (node_name c) in
                 match c with
                 | NLstatErr _ e =>
                     r <- walkFn filename None (Some e) ;;
                     match r with
                     | Some e' => if is_SkipDir e' then loop rest else ret (Some e')
                     | None => loop rest
                     end
                 | NFile _ _ =>
                     r <- walk walkFn filename c ;;
                     match r with
                     | Some e' => ret (Some e')
                     | None => loop rest
                     end
                 | NDir _ _ _ =>
                     r <- walk walkFn filename c ;;
                     match r with
                     | Some e' => if is_SkipDir e' then loop rest else ret (Some e')
                     | None => loop rest
                     end
                 end
             end) names
      | _, _ => ret err1
      end
  | NFile _ _ => walkFn path (node_info n) None
  | NLstatErr _ e => walkFn path None (Some e)
  end.

Definition Walk (root : string) (fn : WalkFunc) : M (option error) :=
  n <- syscall (fun e k => lstat_tree e k root) (fun _ => [EvWalk root]) ;;
  err <- walk fn root n ;;
  match err with
  | Some e => if is_SkipDir e then ret None else ret (Some e)
  | None => ret None
  end.

(** *** Methods of [LogFile] *)

Definition fileNamePattern (l : LogFile) : string :=
  let fileExt := filepath.Ext (fileName l) in
  let fileExt := if fileExt =? "" then ".log" else fileExt in
  GoStrings.TrimSuffix (fileName l) fileExt ++ "%s" ++ fileExt.

Definition openNew : M (option error) :=
  l <- self ;;
  e <- the_env ;;
  let fileNamePattern := fileNamePattern l in
  createTime <- now ;;
  update (fun l => set_rotateName l
    (fmt.Sprintf (fmt_other e) fileNamePattern
       ("-" ++ time.Format_stamp (zone e (time.Unix createTime))
                 (time.of_Unix (time.Unix createTime))))) ;;;
  let newfileName := fmt.Sprintf (fmt_other e) fileNamePattern "" in
  let newfilePath := filepath.Join2 (logPath l) newfileName in
  update (fun l => set_fullName l newfilePath) ;;;
  update (fun l => set_rotateName l (filepath.Join2 (logPath l) (rotateName l))) ;;;
  r <- OpenFile newfilePath ;;
  match r with
  | inr err => ret (Some err)
  | inl filePointer =>
      update (fun l => set_FileInfo l (Some filePointer)) ;;;
      update (fun l => set_LastCreated l createTime) ;;;
      update (fun l => set_BytesWritten l 0%Z) ;;;
      ret None
  end.

(** The age beyond which a log file is removed: [30*24*time.Hour]. *)
Definition retention : time.Duration := (30 * 24 * time.Hour)%Z.

(** The callback that [rotate] hands to [filepath.Walk]. *)
Definition delete_old : WalkFunc :=
  fun path f err =>
    match f with
    | None => ret err
    | Some f =>
        if IsDir f then ret None
        else if negb (GoStrings.HasSuffix (Name f) ".log") then ret None
        else
          age <- Since (ModTime f) ;;
          if (age >? retention)%Z then Remove path ;;; ret None
          else ret (Some SkipDir)
    end.

(** The condition under which [rotate] rotates. *)
Definition rotation_due (l : LogFile) (timeElapsed : time.Duration) : bool :=
  ((BytesWritten l >=? MaxBytes l)%Z && (MaxBytes l >? 0)%Z)
  || (timeElapsed >=? duration l)%Z.

Definition rotate : M (option error) :=
  l <- self ;;
  timeElapsed <- Since (LastCreated l) ;;
  if rotation_due l timeElapsed then
    Close (FileInfo l) ;;;
    Rename (fullName l) (rotateName l) ;;;
    Walk (filepath.Dir (fullName l)) delete_old ;;;
    openNew
  else ret None.

(** What a call that may panic yields. *)
Inductive outcome (A : Type) : Type :=
| Returned (a : A)
| Panicked.
Arguments Returned {A} a.
Arguments Panicked {A}.

(** The loop of [pruneFiles]: [todo] iterations are left, the next one is
    number [i]; indexing past the end of [matches] panics. *)
Fixpoint prune_loop (matches : list string) (i todo : nat)
  : M (outcome (option error)) :=
  match todo with
  | O => ret (Returned None)
  | S todo' =>
      match nth_error matches i with
      | None => ret Panicked
      | Some m =>
          err <- Remove m ;;
          match err with
          | Some e => ret (Returned (Some e))
          | None => prune_loop matches (S i) todo'
          end
      end
  end.

Definition pruneFiles : M (outcome (option error)) :=
  l <- self ;;
  e <- the_env ;;
  if (MaxFiles l =? 0)%Z then ret (Returned None)
  else
    let pattern := fileNamePattern l in
    let globExpression :=
      filepath.Join2 (logPath l) (fmt.Sprintf (fmt_other e) pattern "*") in
    r <- Glob globExpression ;;
    match r with
    | inr err => ret (Returned (Some err))
    | inl matches =>
        let stale := wrap64 (Z.of_nat (List.length matches) - MaxFiles l) in
        prune_loop matches 0 (Z.to_nat stale)
    end.

(** The part of [Write] that runs with the lock held. *)
Definition Write_locked (b : list Byte.byte) : M (Z * option error) :=
  l <- self ;;
  opened <- (match FileInfo l with
             | None => openNew
             | Some _ => ret None
             end) ;;
  match opened with
  | Some err => ret (0%Z, Some err)
  | None =>
      rotated <- rotate ;;
      match rotated with
      | Some err => ret (0%Z, Some err)
      | None =>
          update (fun l => set_BytesWritten l
                    (wrap64 (BytesWritten l + Z.of_nat (List.length b)))) ;;;
          l <- self ;;
          FileWrite (FileInfo l) b
      end
  end.

(** [Write]; the deferred [Unlock] runs on every path that took the lock. *)
Definition Write (b : list Byte.byte) : M (Z * option error) :=
  l <- self ;;
  if negb (logFilter l b) then ret (0%Z, None)
  else
    Lock ;;;
    r <- Write_locked b ;;
    Unlock ;;;
    ret r.

(** ** Vocabulary of the properties *)

(** The loop of [walk] over the entries of a directory. *)
Definition walk_names (walkFn : WalkFunc) (path : string)
  : list node -> M (option error) :=
  fix loop (names : list node) : M (option error) :=
    match names with
    | [] => ret None
    | c :: rest =>
        let filename := filepath.Join2 path (node_name c) in
        match c with
        | NLstatErr _ e =>
            r <- walkFn filename None (Some e) ;;
            match r with
            | Some e' => if is_SkipDir e' then loop rest else ret (Some e')
            | None => loop rest
            end
        | NFile _ _ =>
            r <- walk walkFn filename c ;;
            match r with
            | Some e' => ret (Some e')
            | None => loop rest
            end
        | NDir _ _ _ =>
            r <- walk walkFn filename c ;;
            match r with
            | Some e' => if is_SkipDir e' then loop rest else ret (Some e')
            | None => loop rest
            end
        end
    end.

(** The files below a node, each with the path the walk gives it. *)
Fixpoint files_of (path : string) (n : node) : list (string * os.FileInfo) :=
  match n with
  | NFile name mt => [(path, mkFileInfo name false mt)]
  | NDir _ _ (inl names) =>
      (fix go (names : list node) : list (string * os.FileInfo) :=
         match names with
         | [] => []
         | c :: rest =>
             (files_of (filepath.Join2 path (node_name c)) c ++ go rest)%list
         end) names
  | _ => []
  end.

Definition files_of_names (path : string) (names : list node)
  : list (string * os.FileInfo) :=
  flat_map (fun c => files_of (filepath.Join2 path (node_name c)) c) names.

(** The time the next reading of the clock gives. *)
Definition reading (w : World) : time.Time :=
  (clock w + Z.of_N (elapse (env w) (calls w)))%Z.

Definition is_EvRename (ev : event) : bool :=
  match ev with EvRename _ _ _ => true | _ => false end.

Definition is_EvRemove (ev : event) : bool :=
  match ev with EvRemove _ _ => true | _ => false end.

Definition is_EvGlob (ev : event) : bool :=
  match ev with EvGlob _ => true | _ => false end.

(** Number of rotations in a stretch of the trace: each renames the active
    file once. *)
Definition rotations (evs : list event) : nat :=
  List.length (filter is_EvRename evs).

(** Paths removed in a stretch of the trace, in order. *)
Definition removed_paths (evs : list event) : list string :=
  flat_map (fun ev => match ev with EvRemove p _ => [p] | _ => [] end) evs.

(** The removal of a file found by the walk whose name ends in ".log" and
    whose modification time lies more than the retention before [t]. *)
Definition stale_log_removal (found : list (string * os.FileInfo))
           (t : time.Time) (ev : event) : Prop :=
  exists p res fi,
    ev = EvRemove p res /\ In (p, fi) found /\ IsDir fi = false
    /\ GoStrings.HasSuffix (Name fi) ".log" = true
    /\ (ModTime fi + retention < t)%Z.

(** Names, in order, of the entries whose name ends in ".log". *)
Definition log_names (names : list node) : list string :=
  filter (fun name => GoStrings.HasSuffix name ".log") (map node_name names).

Definition is_NFile (n : node) : bool :=
  match n with NFile _ _ => true | _ => false end.

(** Every file among the entries whose name ends in ".log" was modified more
    than the retention before [t]. *)
Definition logs_stale (names : list node) (t : time.Time) : Prop :=
  forall name mt, In (NFile name mt) names ->
    GoStrings.HasSuffix name ".log" = true -> (mt + retention < t)%Z.

(** The entries start with a ".log" file modified no more than the retention
    before [t]. *)
Definition starts_fresh (names : list node) (t : time.Time) : Prop :=
  exists name mt rest,
    names = NFile name mt :: rest
    /\ GoStrings.HasSuffix name ".log" = true /\ (t <= mt + retention)%Z.

(** The rotation condition, in the words of the specification. *)
Definition rotation_condition (l : LogFile) (t : time.Time) : Prop :=
  ((BytesWritten l >= MaxBytes l)%Z /\ (MaxBytes l > 0)%Z)
  \/ (time.Sub t (LastCreated l) >= duration l)%Z.

Definition percent_free (s : string) : bool :=
  negb (GoStrings.contains_byte "%"%char s).

(** The extension [fileNamePattern] works with, and the name without it. *)
Definition fileExt (l : LogFile) : string :=
  let e := filepath.Ext (fileName l) in if e =? "" then ".log" else e.

Definition stem (l : LogFile) : string :=
  GoStrings.TrimSuffix (fileName l) (fileExt l).

(** The timestamp [openNew] puts into the rotated name for a creation time. *)
Definition stamp (e : Env) (createTime : time.Time) : string :=
  time.Format_stamp (zone e (time.Unix createTime))
    (time.of_Unix (time.Unix createTime)).

(** The path [openNew] stores in [fullName]. *)
Definition active_path (e : Env) (l : LogFile) : string :=
  filepath.Join2 (logPath l) (fmt.Sprintf (fmt_other e) (fileNamePattern l) "").

(** The path [openNew] stores in [rotateName] for a creation time. *)
Definition rotated_path (e : Env) (l : LogFile) (createTime : time.Time) : string :=
  filepath.Join2 (logPath l)
    (fmt.Sprintf (fmt_other e) (fileNamePattern l) ("-" ++ stamp e createTime)).

(** The writer after [openNew] computed the two paths at [createTime]. *)
Definition with_paths (e : Env) (l : LogFile) (createTime : time.Time) : LogFile :=
  set_rotateName (set_fullName l (active_path e l)) (rotated_path e l createTime).

(** The writer after [openNew] opened [f] at [createTime]. *)
Definition opened (e : Env) (l : LogFile) (createTime : time.Time) (f : File)
  : LogFile :=
  set_BytesWritten
    (set_LastCreated (set_FileInfo (with_paths e l createTime) (Some f)) createTime)
    0%Z.

(** The effect of a walk: the writer is neither read nor touched, the clock
    does not go back, and every event is the removal of a stale ".log" file
    found. *)
Definition prunes (path : string) (found : list (string * os.FileInfo))
           (m : M (option error)) : Prop :=
  forall w, exists r w' evs,
    (forall l, m (l, w) = (r, (l, w')))
    /\ env w' = env w /\ (clock w <= clock w')%Z
    /\ trace w' = (trace w ++ evs)%list
    /\ Forall (stale_log_removal found (clock w')) evs.

(** A writer that differs from [l] in fields [rotate] does not look at
    before it reopens. *)
Definition rotates_like (l l' : LogFile) : Prop :=
  FileInfo l' = FileInfo l /\ fullName l' = fullName l
  /\ rotateName l' = rotateName l /\ LastCreated l' = LastCreated l
  /\ duration l' = duration l /\ MaxBytes l' = MaxBytes l
  /\ BytesWritten l' = BytesWritten l.

(** The time [rotate] reads in a call of [Write] on a writer that has a
    handle: the first reading of the clock after the lock is taken. *)
Definition time_of_check (w : World) : time.Time := reading (emit w [EvLock]).

(** The pattern [pruneFiles] hands to [filepath.Glob]. *)
Definition globExpression (e : Env) (l : LogFile) : string :=
  filepath.Join2 (logPath l) (fmt.Sprintf (fmt_other e) (fileNamePattern l) "*").

(** ** Sample environments and writers *)

Definition record (n : nat) : list Byte.byte := repeat Byte.x41 n.

Definition day : time.Duration := (24 * time.Hour)%Z.

(** An environment in which every call succeeds, a microsecond passes
    before each reading of the clock, the local zone is UTC, and the
    directory holds the given entries. *)
Definition calm (entries : list node) : Env :=
  mkEnv (fun _ => 1000%N) (fun _ => 0%Z) (fun _ _ _ => "")
        (fun k _ => inl k) (fun _ _ => None) (fun _ _ _ => None)
        (fun _ _ => None) (fun _ _ _ => None)
        (fun _ _ => NDir "logs" 0%Z (inl entries))
        (fun _ _ => inl (map (filepath.Join2 "logs") (log_names entries))).

(** The same, except that a write gets only [n] bytes through. *)
Definition short_disk (n : nat) : Env :=
  mkEnv (fun _ => 1000%N) (fun _ => 0%Z) (fun _ _ _ => "")
        (fun k _ => inl k) (fun _ _ => None) (fun _ _ _ => None)
        (fun _ _ => None) (fun _ _ _ => Some (n, Errno 28))
        (fun _ _ => NDir "logs" 0%Z (inl []))
        (fun _ _ => inl []).

(** The same as [calm []], except that no file can be opened. *)
Definition locked_dir : Env :=
  mkEnv (fun _ => 1000%N) (fun _ => 0%Z) (fun _ _ _ => "")
        (fun _ _ => inr (Errno 13)) (fun _ _ => None) (fun _ _ _ => None)
        (fun _ _ => None) (fun _ _ _ => None)
        (fun _ _ => NDir "logs" 0%Z (inl []))
        (fun _ _ => inl []).

(** Two hours pass before call 7; call 9, a rename, and call 12, an open,
    fail; everything else is as in [calm []]. *)
Definition flaky : Env :=
  mkEnv (fun k => if (k =? 7)%nat then Z.to_N (2 * time.Hour) else 1000%N)
        (fun _ => 0%Z) (fun _ _ _ => "")
        (fun k _ => if (k =? 12)%nat then inr (Errno 13) else inl k)
        (fun _ _ => None)
        (fun k _ _ => if (k =? 9)%nat then Some (Errno 13) else None)
        (fun _ _ => None) (fun _ _ _ => None)
        (fun _ _ => NDir "logs" 0%Z (inl []))
        (fun _ _ => inl []).

(** Closing and renaming always fail; everything else is as in [calm []]. *)
Definition grumpy : Env :=
  mkEnv (fun _ => 1000%N) (fun _ => 0%Z) (fun _ _ _ => "")
        (fun k _ => inl k) (fun _ _ => Some (Errno 9))
        (fun _ _ _ => Some (Errno 13))
        (fun _ _ => None) (fun _ _ _ => None)
        (fun _ _ => NDir "logs" 0%Z (inl []))
        (fun _ _ => inl []).

Definition start (e : Env) (t : time.Time) : World := mkWorld e 0 t [].

(** 2023-11-14 22:13:20 UTC. *)
Definition noon : time.Time := (1700000000 * time.Second)%Z.

(** The writer and the world after a call of [Write]. *)
Definition after (b : list Byte.byte) (s : LogFile * World) : LogFile * World :=
  snd (Write b s).

(** What a call of [Write] added to the trace. *)
Definition added (b : list Byte.byte) (s : LogFile * World) : list event :=
  skipn (List.length (trace (snd s))) (trace (snd (after b s))).

(** A writer that has not written yet: logs/app.log, rotated hourly or at
    100 bytes. *)
Definition fresh_writer : LogFile :=
  mkLogFile (fun _ => true) "app.log" "" "" "logs" time.Hour 0%Z None
            100%Z 0%Z 0%Z.

(** The same writer with file 7 open since [t] and [n] bytes counted. *)
Definition running (t : time.Time) (n : Z) : LogFile :=
  set_BytesWritten (opened (calm []) fresh_writer t 7) n.

(** A writer whose filter rejects every record. *)
Definition deaf_writer : LogFile :=
  mkLogFile (fun _ => false) "app.log" "" "" "logs" time.Hour 0%Z None
            100%Z 0%Z 0%Z.

(** A writer whose base name has a percent sign. *)
Definition percent_writer : LogFile :=
  mkLogFile (fun _ => true) "100%.log" "" "" "logs" time.Hour 0%Z None
            100%Z 0%Z 0%Z.

(** A writer for logs/app.txt with file 7 open since [t] and [n] bytes
    counted. *)
Definition txt_running (t : time.Time) (n : Z) : LogFile :=
  set_BytesWritten
    (opened (calm [])
       (mkLogFile (fun _ => true) "app.txt" "" "" "logs" time.Hour 0%Z None
                  100%Z 0%Z 0%Z) t 7) n.

(** A directory with a rotated text file and a log, both modified 40 days
    ago. *)
Definition old_txt_and_log (t : time.Time) : list node :=
  [NFile "app-20231001000000.txt" (t - 40 * day)%Z;
   NFile "old.log" (t - 40 * day)%Z].

(** A directory with a log modified now, then one modified 40 days ago. *)
Definition fresh_then_stale (t : time.Time) : list node :=
  [NFile "a.log" t; NFile "b.log" (t - 40 * day)%Z].

(** A directory with two logs and a text file modified 40 days ago. *)
Definition all_stale (t : time.Time) : list node :=
  [NFile "app-1.log" (t - 40 * day)%Z; NFile "notes.txt" (t - 40 * day)%Z;
   NFile "app-2.log" (t - 40 * day)%Z].

(** Induction on what a walk finds, with the entries of a directory covered
    by the hypothesis. *)
Section NodeInduction.
Variable P : node -> Prop.
Hypothesis Hfile : forall name mt, P (NFile name mt).
Hypothesis Hdir : forall name mt names,
    Forall P names -> P (NDir name mt (inl names)).
Hypothesis Hunread : forall name mt e, P (NDir name mt (inr e)).
Hypothesis Hlstat : forall name e, P (NLstatErr name e).

Fixpoint node_induction (n : node) : P n :=
  match n with
  | NFile name mt => Hfile name mt
  | NDir name mt (inl names) =>
      Hdir name mt names
        ((fix all (ns : list node) : Forall P ns :=
            match ns with
            | [] => Forall_nil P
            | c :: rest => Forall_cons c (node_induction c) (all rest)
            end) names)
  | NDir name mt (inr e) => Hunread name mt e
  | NLstatErr name e => Hlstat name e
  end.
End NodeInduction.

Ltac run_monad :=
  repeat unfold Since, Close, Rename, Remove, OpenFile, Glob, Lock, Unlock,
    syscall, now, update, the_env, self, bind, ret;
  cbn [fst snd].

(** * Properties *)

(** ** Strings and names *)

Section StringFacts.

Lemma append_nil_r (s : string) : s ++ "" = s.
Proof. induction s; simpl; congruence. Qed.

Lemma append_assoc (a b c : string) : (a ++ b) ++ c = a ++ (b ++ c).
Proof. induction a; simpl; congruence. Qed.

Lemma length_append (a b : string) :
  String.length (a ++ b) = String.length a + String.length b.
Proof. induction a; simpl; congruence. Qed.

Lemma substring_prefix (a b : string) :
  substring 0 (String.length a) (a ++ b) = a.
Proof. induction a; simpl; [destruct b; reflexivity | congruence]. Qed.

Lemma substring_suffix (a b : string) :
  substring (String.length a) (String.length b) (a ++ b) = b.
Proof.
  induction a; simpl; auto.
  induction b; simpl; [reflexivity | congruence].
Qed.

Lemma substring_split (s : string) (n : nat) :
  n <= String.length s ->
  s = substring 0 n s ++ substring n (String.length s - n) s.
Proof.
  revert n; induction s as [|c s IH]; intros n Hn; simpl in *.
  - destruct n; [reflexivity | lia].
  - destruct n as [|n]; simpl.
    + f_equal. clear IH Hn. induction s; simpl; congruence.
    + f_equal. apply IH. lia.
Qed.

Lemma string_of_list_app (a b : list ascii) :
  string_of_list_ascii (a ++ b) = string_of_list_ascii a ++ string_of_list_ascii b.
Proof. induction a; simpl; congruence. Qed.

Lemma list_of_string_app (a b : string) :
  list_ascii_of_string (a ++ b) = (list_ascii_of_string a ++ list_ascii_of_string b)%list.
Proof. induction a; simpl; congruence. Qed.

Lemma contains_byte_app (c : ascii) (a b : string) :
  GoStrings.contains_byte c (a ++ b)
  = GoStrings.contains_byte c a || GoStrings.contains_byte c b.
Proof. induction a; simpl; [reflexivity | rewrite IHa; apply orb_assoc]. Qed.

Lemma HasSuffix_app (a e : string) : GoStrings.HasSuffix (a ++ e) e = true.
Proof.
  unfold GoStrings.HasSuffix. rewrite length_append.
  replace (String.length a + String.length e - String.length e)
    with (String.length a) by lia.
  rewrite substring_suffix, String.eqb_refl, andb_true_r.
  apply Nat.leb_le. lia.
Qed.

Lemma HasSuffix_inv (s e : string) :
  GoStrings.HasSuffix s e = true -> exists a, s = a ++ e.
Proof.
  unfold GoStrings.HasSuffix. intros H.
  apply andb_true_iff in H. destruct H as [Hlen Heq].
  apply Nat.leb_le in Hlen. apply String.eqb_eq in Heq.
  exists (substring 0 (String.length s - String.length e) s).
  pose proof (substring_split s (String.length s - String.length e)) as Hs.
  replace (String.length s - (String.length s - String.length e))
    with (String.length e) in Hs by lia.
  rewrite Heq in Hs. apply Hs. lia.
Qed.

Lemma TrimSuffix_app (a e : string) : GoStrings.TrimSuffix (a ++ e) e = a.
Proof.
  unfold GoStrings.TrimSuffix. rewrite HasSuffix_app, length_append.
  replace (String.length a + String.length e - String.length e)
    with (String.length a) by lia.
  apply substring_prefix.
Qed.

End StringFacts.

Section ExtFacts.

Lemma scan_ext_suffix (rev_prefix acc : list ascii) :
  filepath.scan_ext rev_prefix acc = []
  \/ exists pre, (rev rev_prefix ++ acc = pre ++ filepath.scan_ext rev_prefix acc)%list.
Proof.
  revert acc; induction rev_prefix as [|c before IH]; intros acc; simpl.
  - now left.
  - destruct (Ascii.eqb c filepath.Separator); [now left|].
    destruct (Ascii.eqb c "."%char).
    + right. exists (rev before). now rewrite <- app_assoc.
    + destruct (IH (c :: acc)) as [E | [pre E]]; [now left|].
      right. exists pre. now rewrite <- app_assoc.
Qed.

(** A non-empty extension is a suffix of the name. *)
Lemma Ext_suffix (s : string) :
  filepath.Ext s <> "" -> exists stem, s = stem ++ filepath.Ext s.
Proof.
  unfold filepath.Ext. intros Hne.
  destruct (scan_ext_suffix (rev (list_ascii_of_string s)) []) as [E | [pre E]].
  - rewrite E in Hne. now elim Hne.
  - exists (string_of_list_ascii pre).
    rewrite <- string_of_list_app, <- E, rev_involutive, app_nil_r.
    now rewrite string_of_list_ascii_of_string.
Qed.

(** A name that ends in ".log" has the extension ".log". *)
Lemma Ext_log (a : string) : filepath.Ext (a ++ ".log") = ".log".
Proof.
  unfold filepath.Ext.
  rewrite list_of_string_app, rev_app_distr. reflexivity.
Qed.

Lemma Ext_empty_not_log (s : string) :
  filepath.Ext s = "" -> GoStrings.HasSuffix s ".log" = false.
Proof.
  intros He. destruct (GoStrings.HasSuffix s ".log") eqn:Hs; [|reflexivity].
  apply HasSuffix_inv in Hs. destruct Hs as [a ->].
  rewrite Ext_log in He. discriminate.
Qed.

End ExtFacts.

Section SprintfFacts.
Variable other : bool -> string -> string -> string.

Lemma Sprintf1_plain (a rest arg : string) (used : bool) :
  percent_free a = true ->
  fmt.Sprintf1 other (a ++ rest) arg used = a ++ fmt.Sprintf1 other rest arg used.
Proof.
  unfold percent_free.
  induction a as [|c a IH]; intros H; [reflexivity|].
  simpl in H. apply negb_true_iff, orb_false_iff in H. destruct H as [Hc Ha].
  change ((String c a) ++ rest) with (String c (a ++ rest)).
  cbn [fmt.Sprintf1]. rewrite Hc. cbn [negb].
  rewrite IH by now rewrite Ha. reflexivity.
Qed.

Lemma Sprintf1_plain_end (a arg : string) :
  percent_free a = true -> fmt.Sprintf1 other a arg true = a.
Proof.
  intros H. rewrite <- (append_nil_r a) at 1.
  rewrite Sprintf1_plain by assumption. simpl. apply append_nil_r.
Qed.

(** A pattern made of a plain prefix, one %s and a plain suffix is filled
    in the way it reads. *)
Lemma Sprintf_pattern (a c arg : string) :
  percent_free a = true -> percent_free c = true ->
  fmt.Sprintf other (a ++ "%s" ++ c) arg = a ++ arg ++ c.
Proof.
  intros Ha Hc. unfold fmt.Sprintf.
  rewrite Sprintf1_plain by assumption.
  cbn. now rewrite Sprintf1_plain_end.
Qed.

End SprintfFacts.

(** ** The names of the active and of the rotated file *)

Lemma fileNamePattern_eq (l : LogFile) :
  fileNamePattern l = stem l ++ "%s" ++ fileExt l.
Proof. reflexivity. Qed.

Lemma stem_fileExt (l : LogFile) :
  stem l ++ fileExt l
  = if filepath.Ext (fileName l) =? "" then fileName l ++ ".log" else fileName l.
Proof.
  unfold stem, fileExt.
  destruct (filepath.Ext (fileName l) =? "") eqn:E.
  - apply String.eqb_eq in E. unfold GoStrings.TrimSuffix.
    now rewrite (Ext_empty_not_log _ E).
  - apply String.eqb_neq in E. destruct (Ext_suffix _ E) as [a Ha].
    rewrite Ha at 1. now rewrite TrimSuffix_app.
Qed.

Lemma percent_free_app (a b : string) :
  percent_free (a ++ b) = percent_free a && percent_free b.
Proof. unfold percent_free. rewrite contains_byte_app. apply negb_orb. Qed.

Lemma percent_free_parts (l : LogFile) :
  percent_free (fileName l) = true ->
  percent_free (stem l) = true /\ percent_free (fileExt l) = true.
Proof.
  intros H. apply andb_true_iff. rewrite <- percent_free_app, stem_fileExt.
  destruct (filepath.Ext (fileName l) =? ""); [|assumption].
  rewrite percent_free_app, H. reflexivity.
Qed.

(** For a base name without a percent sign the active path is the directory
    joined with the name (".log" appended when it has no extension) and the
    rotated path has "-" and the timestamp inserted before the extension. *)
Lemma Namer_paths (e : Env) (l : LogFile) (t : time.Time) :
  percent_free (fileName l) = true ->
  active_path e l = filepath.Join2 (logPath l) (stem l ++ fileExt l)
  /\ rotated_path e l t
     = filepath.Join2 (logPath l) (stem l ++ ("-" ++ stamp e t) ++ fileExt l)
  /\ stem l ++ fileExt l
     = (if filepath.Ext (fileName l) =? "" then fileName l ++ ".log" else fileName l).
Proof.
  intros H. destruct (percent_free_parts l H) as [Hs He].
  unfold active_path, rotated_path. rewrite fileNamePattern_eq.
  rewrite !Sprintf_pattern by assumption.
  repeat split. apply stem_fileExt.
Qed.

(** The rotated path has second resolution. *)
Lemma rotated_path_seconds (e : Env) (l : LogFile) (t1 t2 : time.Time) :
  time.Unix t1 = time.Unix t2 -> rotated_path e l t1 = rotated_path e l t2.
Proof. unfold rotated_path, stamp. now intros ->. Qed.

(** ** The clock *)

Lemma Sub_exact (t u : time.Time) :
  (time.minDuration <= t - u <= time.maxDuration)%Z -> time.Sub t u = (t - u)%Z.
Proof.
  unfold time.Sub. intros H.
  destruct (Z.ltb_spec (t - u) time.minDuration); [lia|].
  destruct (Z.ltb_spec time.maxDuration (t - u)); [lia|reflexivity].
Qed.

(** Saturation does not change a comparison with a duration inside the
    range. *)
Lemma Sub_ge (t u : time.Time) (d : time.Duration) :
  (time.minDuration < d <= time.maxDuration)%Z ->
  ((time.Sub t u >= d)%Z <-> (t - u >= d)%Z).
Proof.
  unfold time.Sub. intros H.
  destruct (Z.ltb_spec (t - u) time.minDuration); [lia|].
  destruct (Z.ltb_spec time.maxDuration (t - u)); lia.
Qed.

Lemma Sub_gt_retention (t u : time.Time) :
  (time.Sub t u >? retention)%Z = true <-> (u + retention < t)%Z.
Proof.
  rewrite Z.gtb_ltb, Z.ltb_lt.
  assert (Hr : (time.minDuration < retention < time.maxDuration)%Z)
    by (vm_compute; split; reflexivity).
  unfold time.Sub.
  destruct (Z.ltb_spec (t - u) time.minDuration); [lia|].
  destruct (Z.ltb_spec time.maxDuration (t - u)); lia.
Qed.

Lemma reading_ge (w : World) : (clock w <= reading w)%Z.
Proof. unfold reading. lia. Qed.

(** ** The walk that removes old files *)

Lemma stale_log_removal_weaken found found' t t' ev :
  incl found found' -> (t <= t')%Z ->
  stale_log_removal found t ev -> stale_log_removal found' t' ev.
Proof.
  intros Hi Ht (p & res & fi & -> & Hin & Hd & Hs & Hm).
  exists p, res, fi. repeat split; auto. lia.
Qed.

Lemma files_of_dir path name mt names :
  files_of path (NDir name mt (inl names)) = files_of_names path names.
Proof. reflexivity. Qed.

Lemma walk_dir walkFn path name mt names :
  walk walkFn path (NDir name mt (inl names))
  = (err1 <- walkFn path (Some (mkFileInfo name true mt)) None ;;
     match err1 with
     | None => walk_names walkFn path names
     | Some _ => ret err1
     end).
Proof. reflexivity. Qed.

(** What the callback does with a file. *)
Lemma delete_old_file path name mt l w :
  delete_old path (Some (mkFileInfo name false mt)) None (l, w)
  = if negb (GoStrings.HasSuffix name ".log") then (None, (l, w))
    else if (time.Sub (reading w) mt >? retention)%Z
         then (None, (l, emit (tick w (reading w))
                            [EvRemove path
                               (remove_result (env w) (S (calls w)) path)]))
         else (Some SkipDir, (l, tick w (reading w))).
Proof.
  unfold delete_old. cbn [IsDir Name ModTime].
  destruct (negb (GoStrings.HasSuffix name ".log")); [reflexivity|].
  unfold Since, now, bind, ret, Remove, syscall. cbn [fst snd].
  fold (reading w).
  destruct (time.Sub (reading w) mt >? retention)%Z; reflexivity.
Qed.

Lemma prunes_nothing path found r : prunes path found (ret r).
Proof.
  intros w. exists r, w, []. unfold ret.
  rewrite app_nil_r. repeat split; auto. lia.
Qed.

Lemma prunes_bind path found m k :
  prunes path found m -> (forall r, prunes path found (k r)) ->
  prunes path found (bind m k).
Proof.
  intros Hm Hk w.
  destruct (Hm w) as (r1 & w1 & evs1 & E1 & He1 & Hc1 & Ht1 & Hf1).
  destruct (Hk r1 w1) as (r2 & w2 & evs2 & E2 & He2 & Hc2 & Ht2 & Hf2).
  exists r2, w2, (evs1 ++ evs2)%list.
  repeat split.
  - intros l. unfold bind. now rewrite E1, E2.
  - congruence.
  - lia.
  - rewrite Ht2, Ht1. now rewrite app_assoc.
  - apply Forall_app. split; [|assumption].
    eapply Forall_impl; [|exact Hf1].
    intros ev. apply stale_log_removal_weaken; [apply incl_refl | lia].
Qed.

Lemma prunes_incl path found found' m :
  incl found found' -> prunes path found m -> prunes path found' m.
Proof.
  intros Hi Hm w.
  destruct (Hm w) as (r & w' & evs & E & He & Hc & Ht & Hf).
  exists r, w', evs. repeat split; auto.
  eapply Forall_impl; [|exact Hf].
  intros ev. apply stale_log_removal_weaken; [assumption | lia].
Qed.

Lemma prunes_file path name mt :
  prunes path [(path, mkFileInfo name false mt)]
         (delete_old path (Some (mkFileInfo name false mt)) None).
Proof.
  intros w.
  destruct (negb (GoStrings.HasSuffix name ".log")) eqn:Hs.
  - exists None, w, []. rewrite app_nil_r. repeat split; auto; [|lia].
    intros l. now rewrite delete_old_file, Hs.
  - destruct (time.Sub (reading w) mt >? retention)%Z eqn:Hage.
    + eexists _, _, [_]. split.
      { intros l. rewrite delete_old_file, Hs, Hage. reflexivity. }
      apply negb_false_iff in Hs.
      cbn [env clock trace emit tick]. pose proof (reading_ge w).
      repeat split; auto. constructor; [|constructor].
      eexists _, _, _. split; [reflexivity|].
      split; [now left|]. cbn [IsDir Name ModTime].
      repeat split; auto. now apply Sub_gt_retention.
    + exists (Some SkipDir), (tick w (reading w)), [].
      cbn [env clock trace tick]. pose proof (reading_ge w).
      rewrite app_nil_r. repeat split; auto.
      intros l. now rewrite delete_old_file, Hs, Hage.
Qed.

Lemma walk_prunes (n : node) :
  forall path, prunes path (files_of path n) (walk delete_old path n).
Proof.
  induction n as [name mt | name mt names IH | name mt e | name e]
    using node_induction; intros path.
  - apply prunes_file.
  - rewrite walk_dir, files_of_dir.
    apply prunes_bind; [apply prunes_nothing|].
    intros [e|]; [apply prunes_nothing|].
    induction names as [|c rest IHrest]; [apply prunes_nothing|].
    inversion IH as [|? ? Hc Hrest]; subst.
    specialize (IHrest Hrest).
    assert (Hhead : prunes path (files_of_names path (c :: rest))
                      (walk delete_old (filepath.Join2 path (node_name c)) c)).
    { intros w.
      destruct (Hc (filepath.Join2 path (node_name c)) w)
        as (r & w' & evs & E & He & Hcl & Ht & Hf).
      exists r, w', evs. repeat split; auto.
      eapply Forall_impl; [|exact Hf]. intros ev.
      apply stale_log_removal_weaken; [|lia].
      cbn [files_of_names flat_map]. apply incl_appl, incl_refl. }
    assert (Htail : prunes path (files_of_names path (c :: rest))
                      (walk_names delete_old path rest)).
    { eapply prunes_incl; [|exact IHrest].
      cbn [files_of_names flat_map]. apply incl_appr, incl_refl. }
    destruct c as [cname cmt | cname cmt centries | cname ce];
      cbn [walk_names]; fold (walk_names delete_old path).
    + apply prunes_bind; [exact Hhead|].
      intros [e'|]; [apply prunes_nothing | exact Htail].
    + apply prunes_bind; [exact Hhead|].
      intros [e'|]; [|exact Htail].
      destruct (is_SkipDir e'); [exact Htail | apply prunes_nothing].
    + apply prunes_bind; [exact Hhead|].
      intros [e'|]; [|exact Htail].
      destruct (is_SkipDir e'); [exact Htail | apply prunes_nothing].
  - cbn [walk files_of]. apply prunes_bind; apply prunes_nothing.
  - cbn [walk files_of]. apply prunes_nothing.
Qed.

Lemma walk_names_prunes path names :
  prunes path (files_of_names path names) (walk_names delete_old path names).
Proof.
  intros w.
  destruct (walk_prunes (NDir "" 0%Z (inl names)) path w)
    as (r & w' & evs & E & H).
  exists r, w', evs. split; [|exact H].
  intros l. rewrite <- (E l). reflexivity.
Qed.

Lemma removed_paths_app evs1 evs2 :
  removed_paths (evs1 ++ evs2) = (removed_paths evs1 ++ removed_paths evs2)%list.
Proof. apply flat_map_app. Qed.

Lemma logs_stale_later names t t' :
  (t <= t')%Z -> logs_stale names t -> logs_stale names t'.
Proof. intros Ht H name mt Hin Hs. specialize (H name mt Hin Hs). lia. Qed.

Lemma logs_stale_tail c names t :
  logs_stale (c :: names) t -> logs_stale names t.
Proof. intros H name mt Hin. apply H. now right. Qed.

(** Leading files whose logs are all stale: the walk removes those logs, in
    order, and goes on with the entries after them. *)
Lemma walk_names_stale_prefix path pre rest :
  forall l w,
    forallb is_NFile pre = true -> logs_stale pre (clock w) ->
    exists w1 evs,
      walk_names delete_old path (pre ++ rest) (l, w)
      = walk_names delete_old path rest (l, w1)
      /\ env w1 = env w /\ (clock w <= clock w1)%Z
      /\ trace w1 = (trace w ++ evs)%list
      /\ removed_paths evs = map (filepath.Join2 path) (log_names pre).
Proof.
  induction pre as [|c pre IH]; intros l w Hf Hst.
  - exists w, []. rewrite app_nil_r. repeat split; auto. lia.
  - cbn [forallb] in Hf. apply andb_true_iff in Hf. destruct Hf as [Hc Hf].
    destruct c as [name mt | |]; try discriminate.
    change ((NFile name mt :: pre) ++ rest)%list
      with (NFile name mt :: (pre ++ rest))%list.
    cbn [walk_names]. fold (walk_names delete_old path).
    unfold bind at 1. cbn [walk node_info node_name].
    rewrite delete_old_file.
    unfold log_names. cbn [map node_name filter]. fold (log_names pre).
    destruct (GoStrings.HasSuffix name ".log") eqn:Hs; cbn [negb].
    + assert (Hold : (time.Sub (reading w) mt >? retention)%Z = true).
      { apply Sub_gt_retention. pose proof (reading_ge w).
        specialize (Hst name mt (or_introl eq_refl) Hs). lia. }
      rewrite Hold.
      set (w0 := emit (tick w (reading w)) _).
      destruct (IH l w0 Hf) as (w1 & evs & E & He & Hcl & Ht & Hr).
      { apply logs_stale_later with (clock w); [apply reading_ge|].
        eapply logs_stale_tail; eassumption. }
      eexists w1, (_ :: evs). rewrite E.
      subst w0. cbn [env clock trace emit tick] in *.
      pose proof (reading_ge w).
      repeat split; auto; [lia | | ].
      * rewrite Ht, <- app_assoc. reflexivity.
      * cbn [removed_paths flat_map]. fold (removed_paths evs).
        rewrite Hr. reflexivity.
    + destruct (IH l w Hf) as (w1 & evs & E & He & Hcl & Ht & Hr).
      { eapply logs_stale_tail; eassumption. }
      exists w1, evs. rewrite E. repeat split; auto.
Qed.

(** The walk of entries that start with a fresh log stops there, when the
    log is still fresh after the walk. *)
Lemma walk_names_fresh_head path rest :
  forall l w, exists r w' evs,
    walk_names delete_old path rest (l, w) = (r, (l, w'))
    /\ env w' = env w /\ (clock w <= clock w')%Z
    /\ trace w' = (trace w ++ evs)%list
    /\ (rest = [] \/ starts_fresh rest (clock w') -> evs = []).
Proof.
  intros l w.
  destruct (walk_names_prunes path rest w)
    as (r & w' & evs & E & He & Hcl & Ht & _).
  specialize (E l).
  destruct rest as [|c rest'].
  - cbn in E. injection E as <- <-.
    exists None, w, []. rewrite app_nil_r. repeat split; auto; lia.
  - destruct c as [name mt | name mt entries | name e].
    2,3: exists r, w', evs; repeat split; auto;
      intros [Hn | (n0 & m0 & r0 & Hn & _)]; discriminate.
    destruct (GoStrings.HasSuffix name ".log") eqn:Hs.
    2:{ exists r, w', evs. repeat split; auto.
        intros [Hn | (n0 & m0 & r0 & Hn & Hs' & _)]; [discriminate|].
        injection Hn as <- <- <-. congruence. }
    destruct (time.Sub (reading w) mt >? retention)%Z eqn:Hage.
    + exists r, w', evs. repeat split; auto.
      intros [Hn | (n0 & m0 & r0 & Hn & _ & Hfresh)]; [discriminate|].
      injection Hn as <- <- <-. exfalso.
      apply Sub_gt_retention in Hage.
      cbn [walk_names] in E. fold (walk_names delete_old path) in E.
      unfold bind at 1 in E. cbn [walk node_info node_name] in E.
      rewrite delete_old_file, Hs in E. cbn [negb] in E.
      apply Sub_gt_retention in Hage. rewrite Hage in E.
      destruct (walk_names_prunes path rest'
                  (emit (tick w (reading w))
                     [EvRemove (filepath.Join2 path name)
                        (remove_result (env w) (S (calls w))
                           (filepath.Join2 path name))]))
        as (r2 & w2 & evs2 & E2 & _ & Hcl2 & _).
      rewrite (E2 l) in E. injection E as _ <-.
      cbn [clock emit tick] in Hcl2.
      apply Sub_gt_retention in Hage. lia.
    + cbn [walk_names]. fold (walk_names delete_old path).
      unfold bind at 1. cbn [walk node_info node_name].
      rewrite delete_old_file, Hs. cbn [negb]. rewrite Hage.
      exists (Some SkipDir), (tick w (reading w)), [].
      cbn [env clock trace tick]. pose proof (reading_ge w).
      rewrite app_nil_r. repeat split; auto.
Qed.

(** [Walk] with the callback of [rotate]. *)
Lemma Walk_prunes root w :
  let n := lstat_tree (env w) (calls w) root in
  exists r w' evs,
    (forall l, Walk root delete_old (l, w) = (r, (l, w')))
    /\ env w' = env w /\ (clock w <= clock w')%Z
    /\ trace w' = (trace w ++ EvWalk root :: evs)%list
    /\ Forall (stale_log_removal (files_of root n) (clock w')) evs
    /\ (forall name mt pre rest,
          n = NDir name mt (inl (pre ++ rest)%list) ->
          forallb is_NFile pre = true -> logs_stale pre (clock w) ->
          rest = [] \/ starts_fresh rest (clock w') ->
          removed_paths evs = map (filepath.Join2 root) (log_names pre)).
Proof.
  intros n.
  set (w0 := emit w [EvWalk root]).
  destruct (walk_prunes n root w0) as (r & w' & evs & E & He & Hcl & Ht & Hf).
  exists (match r with
          | Some e => if is_SkipDir e then None else Some e
          | None => None
          end), w', evs.
  split.
  { intros l. unfold Walk, bind, syscall. cbn [fst snd]. fold n. fold w0.
    rewrite E.
    destruct r as [e|]; [destruct (is_SkipDir e)|]; reflexivity. }
  subst w0. cbn [env clock trace emit] in *.
  repeat split; auto.
  { rewrite Ht, <- app_assoc. reflexivity. }
  intros name mt pre rest Hn Hfiles Hstale Hrest.
  pose (l := mkLogFile (fun _ => true) "" "" "" "" 0%Z 0%Z None 0%Z 0%Z 0%Z).
  specialize (E l).
  rewrite Hn, walk_dir in E. unfold bind at 1 in E. cbn in E.
  destruct (walk_names_stale_prefix root pre rest l (emit w [EvWalk root])
              Hfiles Hstale) as (w1 & evs1 & E1 & He1 & Hcl1 & Ht1 & Hr1).
  destruct (walk_names_fresh_head root rest l w1)
    as (r2 & w2 & evs2 & E2 & He2 & Hcl2 & Ht2 & Hnone).
  rewrite E1, E2 in E. injection E as _ <-.
  rewrite (Hnone Hrest), app_nil_r in Ht2.
  rewrite Ht2, Ht1 in Ht. cbn [trace emit] in Ht.
  apply app_inv_head in Ht. subst evs. exact Hr1.
Qed.

(** ** Running the methods *)

Lemma openNew_run l w :
  let t := reading w in
  let path := active_path (env w) l in
  let r := open_result (env w) (S (calls w)) path in
  let w' := emit (tick w t) [EvOpenFile path r] in
  openNew (l, w) = match r with
                   | inl f => (None, (opened (env w) l t f, w'))
                   | inr e => (Some e, (with_paths (env w) l t, w'))
                   end.
Proof.
  intros t path r w'. subst t path r w'.
  unfold openNew, bind, self, the_env, now, update, OpenFile, syscall, ret.
  unfold opened, with_paths, active_path, rotated_path, stamp, reading.
  destruct l. cbn [fst snd env calls tick logPath rotateName fullName
                   set_rotateName set_fullName].
  match goal with |- context [open_result ?e ?k ?p] =>
    destruct (open_result e k p) end; reflexivity.
Qed.

Lemma rotate_not_due l w :
  rotation_due l (time.Sub (reading w) (LastCreated l)) = false ->
  rotate (l, w) = (None, (l, tick w (reading w))).
Proof.
  intros H. unfold rotate. run_monad. fold (reading w). now rewrite H.
Qed.

Lemma rotate_due l w h :
  FileInfo l = Some h ->
  rotation_due l (time.Sub (reading w) (LastCreated l)) = true ->
  let rc := close_result (env w) (S (calls w)) h in
  let rr := rename_result (env w) (S (S (calls w))) (fullName l) (rotateName l) in
  let root := filepath.Dir (fullName l) in
  let n := lstat_tree (env w) (S (S (S (calls w)))) root in
  exists w2 evs,
    (forall l', rotates_like l l' -> rotate (l', w) = openNew (l', w2))
    /\ env w2 = env w /\ (reading w <= clock w2)%Z
    /\ trace w2
       = (trace w ++ [EvClose h rc; EvRename (fullName l) (rotateName l) rr;
                      EvWalk root] ++ evs)%list
    /\ Forall (stale_log_removal (files_of root n) (clock w2)) evs
    /\ (forall name mt pre rest,
          n = NDir name mt (inl (pre ++ rest)%list) ->
          forallb is_NFile pre = true -> logs_stale pre (clock w) ->
          rest = [] \/ starts_fresh rest (clock w2) ->
          removed_paths evs = map (filepath.Join2 root) (log_names pre)).
Proof.
  intros Hh Hdue rc rr root n.
  set (w1 := emit (emit (tick w (reading w)) [EvClose h rc])
                  [EvRename (fullName l) (rotateName l) rr]).
  destruct (Walk_prunes root w1)
    as (r & w2 & evs & E & He & Hcl & Ht & Hf & Hflat).
  exists w2, evs. split.
  { intros l' (Hfi & Hfn & Hrn & Hlc & Hd & Hmb & Hbw).
    unfold rotate. unfold bind at 1, self at 1. cbn [fst snd].
    unfold bind at 1, Since, now. run_monad. fold (reading w).
    replace (rotation_due l' (time.Sub (reading w) (LastCreated l')))
      with true
      by (rewrite <- Hdue; unfold rotation_due; now rewrite Hlc, Hd, Hmb, Hbw).
    rewrite Hfi, Hfn, Hrn, Hh. run_monad. cbn [fst snd env calls tick emit].
    fold rc. fold rr. fold w1. fold root. now rewrite E. }
  subst w1. cbn [env clock trace calls emit tick] in *.
  repeat split; auto.
  - rewrite Ht, <- !app_assoc. reflexivity.
  - intros name mt pre rest Hn Hfiles Hst Hrest.
    apply (Hflat name mt pre rest Hn Hfiles); [|exact Hrest].
    eapply logs_stale_later; [apply reading_ge | exact Hst].
Qed.

Lemma rotates_like_refl l : rotates_like l l.
Proof. repeat split. Qed.

Lemma Write_rejected l w b :
  logFilter l b = false -> Write b (l, w) = ((0%Z, None), (l, w)).
Proof.
  intros H. unfold Write. run_monad. now rewrite H.
Qed.

Lemma Write_accepted l w b :
  logFilter l b = true ->
  Write b (l, w)
  = let '(r, (l', w')) := Write_locked b (l, emit w [EvLock]) in
    (r, (l', emit w' [EvUnlock])).
Proof.
  intros H. unfold Write. run_monad. rewrite H. cbn [negb fst snd].
  destruct (Write_locked b (l, emit w [EvLock])) as [r [l' w']]. reflexivity.
Qed.

(** The last step of [Write]: count the record, then write it. *)
Lemma write_out_run l w b f :
  FileInfo l = Some f ->
  let res := short_write b (write_result (env w) (calls w) f b) in
  (update (fun l => set_BytesWritten l
             (wrap64 (BytesWritten l + Z.of_nat (List.length b)))) ;;;
   l <- self ;; FileWrite (FileInfo l) b) (l, w)
  = ((Z.of_nat (fst res), snd res),
     (set_BytesWritten l (wrap64 (BytesWritten l + Z.of_nat (List.length b))),
      emit w [EvWrite f b (fst res) (snd res)])).
Proof.
  intros Hf res. run_monad.
  replace (FileInfo (set_BytesWritten l _)) with (Some f)
    by (destruct l; exact (eq_sym Hf)).
  reflexivity.
Qed.

(** With a handle and no rotation due, the record goes to the handle. *)
Lemma Write_locked_steady l w b h :
  FileInfo l = Some h ->
  rotation_due l (time.Sub (reading w) (LastCreated l)) = false ->
  let w1 := tick w (reading w) in
  let res := short_write b (write_result (env w) (S (calls w)) h b) in
  Write_locked b (l, w)
  = ((Z.of_nat (fst res), snd res),
     (set_BytesWritten l (wrap64 (BytesWritten l + Z.of_nat (List.length b))),
      emit w1 [EvWrite h b (fst res) (snd res)])).
Proof.
  intros Hh Hdue w1 res.
  unfold Write_locked. unfold bind at 1, self at 1. cbn [fst snd].
  rewrite Hh. unfold bind at 1, ret at 1. unfold bind at 1.
  rewrite (rotate_not_due l w Hdue).
  exact (write_out_run l w1 b h Hh).
Qed.

(** With a handle and a rotation due, the outcome is that of [openNew]
    after the old file was closed and renamed and the directory walked. *)
Lemma Write_locked_rotating l w b h :
  FileInfo l = Some h ->
  rotation_due l (time.Sub (reading w) (LastCreated l)) = true ->
  forall w2, rotate (l, w) = openNew (l, w2) ->
  let t := reading w2 in
  let path := active_path (env w2) l in
  let w3 := emit (tick w2 t) [EvOpenFile path (open_result (env w2) (S (calls w2)) path)] in
  Write_locked b (l, w)
  = match open_result (env w2) (S (calls w2)) path with
    | inr e => ((0%Z, Some e), (with_paths (env w2) l t, w3))
    | inl f =>
        let res := short_write b (write_result (env w2) (S (S (calls w2))) f b) in
        ((Z.of_nat (fst res), snd res),
         (set_BytesWritten (opened (env w2) l t f)
            (wrap64 (Z.of_nat (List.length b))),
          emit w3 [EvWrite f b (fst res) (snd res)]))
    end.
Proof.
  intros Hh Hdue w2 E t path w3.
  unfold Write_locked. unfold bind at 1, self at 1. cbn [fst snd].
  rewrite Hh. unfold bind at 1, ret at 1. unfold bind at 1.
  rewrite E, openNew_run. fold t. fold path. fold w3.
  destruct (open_result (env w2) (S (calls w2)) path) as [f|e] eqn:Ho.
  - rewrite (write_out_run (opened (env w2) l t f) w3 b f) by (destruct l; reflexivity).
    subst w3. cbn [env calls emit tick]. destruct l; reflexivity.
  - reflexivity.
Qed.

Lemma rotation_due_like l l' t :
  rotates_like l l' -> rotation_due l' t = rotation_due l t.
Proof.
  intros (_ & _ & _ & _ & Hd & Hmb & Hbw).
  unfold rotation_due. now rewrite Hd, Hmb, Hbw.
Qed.

(** An accepted record, a handle, no rotation due. *)
Lemma Write_steady l w b h :
  FileInfo l = Some h -> logFilter l b = true ->
  rotation_due l (time.Sub (reading (emit w [EvLock])) (LastCreated l)) = false ->
  let w1 := tick (emit w [EvLock]) (reading (emit w [EvLock])) in
  let res := short_write b (write_result (env w) (S (S (calls w))) h b) in
  Write b (l, w)
  = ((Z.of_nat (fst res), snd res),
     (set_BytesWritten l (wrap64 (BytesWritten l + Z.of_nat (List.length b))),
      emit (emit w1 [EvWrite h b (fst res) (snd res)]) [EvUnlock])).
Proof.
  intros Hh Hacc Hdue w1 res.
  rewrite (Write_accepted l w b Hacc).
  now rewrite (Write_locked_steady l (emit w [EvLock]) b h Hh Hdue).
Qed.

(** An accepted record, a handle, a rotation due. *)
Lemma Write_rotating l w b h :
  FileInfo l = Some h ->
  rotation_due l (time.Sub (reading (emit w [EvLock])) (LastCreated l)) = true ->
  let rc := close_result (env w) (S (S (calls w))) h in
  let rr := rename_result (env w) (S (S (S (calls w)))) (fullName l) (rotateName l) in
  let root := filepath.Dir (fullName l) in
  let n := lstat_tree (env w) (S (S (S (S (calls w))))) root in
  exists w2 evs,
    env w2 = env w /\ (reading (emit w [EvLock]) <= clock w2)%Z
    /\ trace w2
       = (trace w ++ [EvLock; EvClose h rc;
                      EvRename (fullName l) (rotateName l) rr; EvWalk root]
                  ++ evs)%list
    /\ Forall (stale_log_removal (files_of root n) (clock w2)) evs
    /\ (forall name mt pre rest,
          n = NDir name mt (inl (pre ++ rest)%list) ->
          forallb is_NFile pre = true -> logs_stale pre (clock w) ->
          rest = [] \/ starts_fresh rest (clock w2) ->
          removed_paths evs = map (filepath.Join2 root) (log_names pre))
    /\ (forall l', rotates_like l l' -> logFilter l' b = true ->
        let t := reading w2 in
        let path := active_path (env w) l' in
        let ro := open_result (env w) (S (calls w2)) path in
        let w3 := emit (tick w2 t) [EvOpenFile path ro] in
        Write b (l', w)
        = match ro with
          | inr e => ((0%Z, Some e), (with_paths (env w) l' t, emit w3 [EvUnlock]))
          | inl f =>
              let res := short_write b
                           (write_result (env w) (S (S (calls w2))) f b) in
              ((Z.of_nat (fst res), snd res),
               (set_BytesWritten (opened (env w) l' t f)
                  (wrap64 (Z.of_nat (List.length b))),
                emit (emit w3 [EvWrite f b (fst res) (snd res)]) [EvUnlock]))
          end).
Proof.
  intros Hh Hdue rc rr root n.
  destruct (rotate_due l (emit w [EvLock]) h Hh Hdue)
    as (w2 & evs & E & He & Hcl & Ht & Hf & Hflat).
  cbn [env calls trace clock emit] in He, Ht, Hf, Hflat.
  exists w2, evs. repeat split; auto.
  - rewrite Ht, <- !app_assoc. reflexivity.
  - intros l' Hlike Hacc t path ro w3.
    rewrite (Write_accepted l' w b Hacc).
    assert (Hh' : FileInfo l' = Some h) by (destruct Hlike as [-> _]; exact Hh).
    assert (Hdue' : rotation_due l'
              (time.Sub (reading (emit w [EvLock])) (LastCreated l')) = true).
    { rewrite (rotation_due_like l l') by assumption.
      destruct Hlike as (_ & _ & _ & -> & _). exact Hdue. }
    rewrite (Write_locked_rotating l' (emit w [EvLock]) b h Hh' Hdue' w2
               (E l' Hlike)).
    rewrite He. fold t. fold path. fold ro.
    destruct ro; reflexivity.
Qed.

(** An accepted record and no handle: the file is opened first. *)
Lemma Write_locked_lazy l w b :
  FileInfo l = None ->
  let t := reading w in
  let path := active_path (env w) l in
  let ro := open_result (env w) (S (calls w)) path in
  let w1 := emit (tick w t) [EvOpenFile path ro] in
  Write_locked b (l, w)
  = match ro with
    | inl f => Write_locked b (opened (env w) l t f, w1)
    | inr e => ((0%Z, Some e), (with_paths (env w) l t, w1))
    end.
Proof.
  intros Hn t path ro w1.
  unfold Write_locked at 1. unfold bind at 1, self at 1. cbn [fst snd].
  rewrite Hn. unfold bind at 1. rewrite openNew_run.
  fold t. fold path. fold ro. fold w1.
  destruct ro as [f|e]; [|reflexivity].
  unfold Write_locked. unfold bind at 3, self at 3. cbn [fst snd].
  replace (FileInfo (opened (env w) l t f)) with (Some f)
    by (destruct l; reflexivity).
  unfold bind at 3, ret at 3. reflexivity.
Qed.

(** ** Counting rotations *)

Lemma rotations_app evs1 evs2 :
  rotations (evs1 ++ evs2) = rotations evs1 + rotations evs2.
Proof. unfold rotations. now rewrite filter_app, length_app. Qed.

Lemma removals_only found t evs :
  Forall (stale_log_removal found t) evs ->
  Forall (fun ev => is_EvRemove ev = true) evs.
Proof.
  apply Forall_impl. intros ev (p & res & fi & -> & _). reflexivity.
Qed.

Lemma removals_no_rotation evs :
  Forall (fun ev => is_EvRemove ev = true) evs -> rotations evs = 0.
Proof.
  induction 1 as [|ev evs Hev _ IH]; [reflexivity|].
  change (ev :: evs) with ([ev] ++ evs)%list. rewrite rotations_app, IH.
  destruct ev; try discriminate; reflexivity.
Qed.

Lemma removals_no_glob evs :
  Forall (fun ev => is_EvRemove ev = true) evs ->
  Forall (fun ev => is_EvGlob ev = false) evs.
Proof.
  apply Forall_impl. intros ev. destruct ev; try discriminate; reflexivity.
Qed.

(** What [Write] adds to the trace when the writer has a handle: one
    rotation exactly when the source's condition holds, and no [Glob]. *)
Lemma Write_events_with_handle l w b h :
  FileInfo l = Some h -> logFilter l b = true ->
  exists evs,
    trace (snd (snd (Write b (l, w)))) = (trace w ++ evs)%list
    /\ rotations evs
       = (if rotation_due l (time.Sub (reading (emit w [EvLock])) (LastCreated l))
          then 1 else 0)
    /\ Forall (fun ev => is_EvGlob ev = false) evs.
Proof.
  intros Hh Hacc.
  destruct (rotation_due l (time.Sub (reading (emit w [EvLock])) (LastCreated l)))
    eqn:Hdue.
  - destruct (Write_rotating l w b h Hh Hdue)
      as (w2 & evs & He & Hcl & Ht & Hf & _ & HW).
    specialize (HW l (rotates_like_refl l) Hacc). cbv zeta in HW.
    apply removals_only in Hf.
    pose proof (removals_no_rotation _ Hf) as Hrot.
    pose proof (removals_no_glob _ Hf) as Hglob.
    rewrite HW.
    destruct (open_result (env w) (S (calls w2)) (active_path (env w) l)) as [f|e];
      cbn [snd trace emit tick]; rewrite Ht, <- !app_assoc;
      eexists; (split; [reflexivity|]); split.
    + rewrite !rotations_app, Hrot. reflexivity.
    + repeat (apply Forall_app; split); auto; repeat constructor.
    + rewrite !rotations_app, Hrot. reflexivity.
    + repeat (apply Forall_app; split); auto; repeat constructor.
  - rewrite (Write_steady l w b h Hh Hacc Hdue).
    cbn [snd trace emit tick]. rewrite <- !app_assoc.
    eexists. split; [reflexivity|]. split; [reflexivity|].
    repeat constructor.
Qed.

(** The same for any writer: at most one rotation, and no [Glob]. *)
Lemma Write_events l w b :
  exists evs,
    trace (snd (snd (Write b (l, w)))) = (trace w ++ evs)%list
    /\ rotations evs <= 1
    /\ Forall (fun ev => is_EvGlob ev = false) evs.
Proof.
  destruct (logFilter l b) eqn:Hacc.
  2:{ rewrite (Write_rejected l w b Hacc). exists []. cbn.
      rewrite app_nil_r. repeat split; auto. }
  destruct (FileInfo l) as [h|] eqn:Hh.
  { destruct (Write_events_with_handle l w b h Hh Hacc) as (evs & Ht & Hr & Hg).
    exists evs. repeat split; auto. rewrite Hr.
    destruct (rotation_due _ _); lia. }
  rewrite (Write_accepted l w b Hacc).
  rewrite (Write_locked_lazy l (emit w [EvLock]) b Hh).
  cbn [env calls emit].
  set (t := reading (emit w [EvLock])).
  set (path := active_path (env w) l).
  destruct (open_result (env w) (S (S (calls w))) path) as [f|e] eqn:Ho.
  2:{ cbn [snd trace emit tick]. rewrite <- !app_assoc.
      eexists. split; [reflexivity|]. split; [cbn; lia|]. repeat constructor. }
  set (l1 := opened (env w) l t f).
  set (w1 := emit (tick (emit w [EvLock]) t) [EvOpenFile path (inl f)]).
  assert (Hh1 : FileInfo l1 = Some f) by (destruct l; reflexivity).
  assert (Hacc1 : logFilter l1 b = true) by (destruct l; exact Hacc).
  destruct (rotation_due l1 (time.Sub (reading w1) (LastCreated l1))) eqn:Hdue.
  - destruct (rotate_due l1 w1 f Hh1 Hdue)
      as (w2 & evs & E & He & Hcl & Ht & Hf & _).
    rewrite (Write_locked_rotating l1 w1 b f Hh1 Hdue w2
               (E l1 (rotates_like_refl l1))).
    apply removals_only in Hf.
    pose proof (removals_no_rotation _ Hf) as Hrot.
    pose proof (removals_no_glob _ Hf) as Hglob.
    destruct (open_result (env w2) (S (calls w2)) (active_path (env w2) l1));
      cbn [snd trace emit tick]; rewrite Ht; subst w1;
      cbn [trace emit tick]; rewrite <- !app_assoc;
      eexists; (split; [reflexivity|]); split.
    + rewrite !rotations_app, Hrot. cbn. lia.
    + repeat (apply Forall_app; split); auto; repeat constructor.
    + rewrite !rotations_app, Hrot. cbn. lia.
    + repeat (apply Forall_app; split); auto; repeat constructor.
  - rewrite (Write_locked_steady l1 w1 b f Hh1 Hdue).
    subst w1. cbn [snd trace emit tick]. rewrite <- !app_assoc.
    eexists. split; [reflexivity|]. split; [cbn; lia|]. repeat constructor.
Qed.

(** ** The outcome of a rotating [Write] *)

Lemma rotation_due_spec l t :
  rotation_due l (time.Sub t (LastCreated l)) = true <-> rotation_condition l t.
Proof.
  unfold rotation_due, rotation_condition.
  rewrite orb_true_iff, andb_true_iff, !Z.geb_le, Z.gtb_lt. lia.
Qed.

Lemma wrap64_small z : in_int64 z -> wrap64 z = z.
Proof.
  unfold in_int64, wrap64. intros H.
  rewrite Z.mod_small; lia.
Qed.

(** A rotating [Write] closes the old file, renames it to [rotateName],
    walks the directory, removes files, opens the active path again and,
    when that works, writes the record there.  What it returns comes from
    the open and the write alone. *)
Lemma Write_rotating_outcome l w b h :
  FileInfo l = Some h -> logFilter l b = true ->
  rotation_due l (time.Sub (time_of_check w) (LastCreated l)) = true ->
  exists rc rr evs ro tail t,
    trace (snd (snd (Write b (l, w))))
    = (trace w ++ [EvLock; EvClose h rc;
                   EvRename (fullName l) (rotateName l) rr;
                   EvWalk (filepath.Dir (fullName l))]
               ++ evs ++ EvOpenFile (active_path (env w) l) ro :: tail)%list
    /\ Forall (fun ev => is_EvRemove ev = true) evs
    /\ (time_of_check w <= t)%Z /\ clock (snd (snd (Write b (l, w)))) = t
    /\ match ro with
       | inl f =>
           exists n err,
             tail = [EvWrite f b n err; EvUnlock]
             /\ fst (Write b (l, w)) = (Z.of_nat n, err)
             /\ n <= List.length b /\ (n < List.length b -> err <> None)
             /\ fst (snd (Write b (l, w)))
                = set_BytesWritten (opened (env w) l t f)
                    (wrap64 (Z.of_nat (List.length b)))
       | inr e =>
           tail = [EvUnlock]
           /\ fst (Write b (l, w)) = (0%Z, Some e)
           /\ fst (snd (Write b (l, w))) = with_paths (env w) l t
       end.
Proof.
  intros Hh Hacc Hdue.
  destruct (Write_rotating l w b h Hh Hdue)
    as (w2 & evs & He & Hcl & Ht & Hf & _ & HW).
  specialize (HW l (rotates_like_refl l) Hacc). cbv zeta in HW.
  apply removals_only in Hf.
  pose proof (reading_ge w2) as Hr.
  exists (close_result (env w) (S (S (calls w))) h),
    (rename_result (env w) (S (S (S (calls w)))) (fullName l) (rotateName l)),
    evs, (open_result (env w) (S (calls w2)) (active_path (env w) l)).
  rewrite HW.
  destruct (open_result (env w) (S (calls w2)) (active_path (env w) l)) as [f|e].
  - eexists _, (reading w2).
    cbn [fst snd trace clock emit tick]. rewrite Ht, <- !app_assoc.
    split; [reflexivity|]. split; [assumption|].
    split; [unfold time_of_check; lia|]. split; [reflexivity|].
    eexists _, _. split; [reflexivity|]. split; [reflexivity|].
    unfold short_write.
    destruct (write_result (env w) (S (S (calls w2))) f b) as [[n e]|];
      cbn [fst snd]; repeat split; try lia; try discriminate.
  - eexists _, (reading w2).
    cbn [fst snd trace clock emit tick]. rewrite Ht, <- !app_assoc.
    split; [reflexivity|]. split; [assumption|].
    split; [unfold time_of_check; lia|]. split; [reflexivity|].
    repeat split.
Qed.

(** ** [MaxFiles] is not consulted by [Write] *)

Lemma set_MaxFiles_like l m : rotates_like l (set_MaxFiles l m).
Proof. destruct l. repeat split. Qed.

Lemma active_path_MaxFiles e l m :
  active_path e (set_MaxFiles l m) = active_path e l.
Proof. destruct l. reflexivity. Qed.

Lemma with_paths_MaxFiles e l m t :
  with_paths e (set_MaxFiles l m) t = set_MaxFiles (with_paths e l t) m.
Proof. destruct l. reflexivity. Qed.

Lemma opened_MaxFiles e l m t f :
  opened e (set_MaxFiles l m) t f = set_MaxFiles (opened e l t f) m.
Proof. destruct l. reflexivity. Qed.

Lemma set_BytesWritten_MaxFiles l m n :
  set_BytesWritten (set_MaxFiles l m) n = set_MaxFiles (set_BytesWritten l n) m.
Proof. destruct l. reflexivity. Qed.

Lemma BytesWritten_MaxFiles l m : BytesWritten (set_MaxFiles l m) = BytesWritten l.
Proof. destruct l. reflexivity. Qed.

Lemma LastCreated_MaxFiles l m : LastCreated (set_MaxFiles l m) = LastCreated l.
Proof. destruct l. reflexivity. Qed.

Lemma rotation_due_MaxFiles l m t :
  rotation_due (set_MaxFiles l m) t = rotation_due l t.
Proof. destruct l. reflexivity. Qed.

(** With the lock held and a handle, [MaxFiles] plays no part. *)
Lemma Write_locked_MaxFiles l w b h m :
  FileInfo l = Some h ->
  Write_locked b (set_MaxFiles l m, w)
  = (fst (Write_locked b (l, w)),
     (set_MaxFiles (fst (snd (Write_locked b (l, w)))) m,
      snd (snd (Write_locked b (l, w))))).
Proof.
  intros Hh.
  assert (Hh' : FileInfo (set_MaxFiles l m) = Some h) by (destruct l; exact Hh).
  destruct (rotation_due l (time.Sub (reading w) (LastCreated l))) eqn:Hdue.
  - destruct (rotate_due l w h Hh Hdue) as (w2 & evs & E & _).
    rewrite (Write_locked_rotating l w b h Hh Hdue w2
               (E l (rotates_like_refl l))).
    rewrite (Write_locked_rotating (set_MaxFiles l m) w b h Hh'
               ltac:(now rewrite rotation_due_MaxFiles, LastCreated_MaxFiles)
               w2 (E _ (set_MaxFiles_like l m))).
    rewrite active_path_MaxFiles.
    destruct (open_result (env w2) (S (calls w2)) (active_path (env w2) l));
      cbn [fst snd].
    + now rewrite opened_MaxFiles, set_BytesWritten_MaxFiles.
    + now rewrite with_paths_MaxFiles.
  - rewrite (Write_locked_steady l w b h Hh Hdue).
    rewrite (Write_locked_steady (set_MaxFiles l m) w b h Hh')
      by now rewrite rotation_due_MaxFiles, LastCreated_MaxFiles.
    cbn [fst snd].
    now rewrite set_BytesWritten_MaxFiles, BytesWritten_MaxFiles.
Qed.

Lemma Write_accepted_proj l w b :
  logFilter l b = true ->
  Write b (l, w)
  = (fst (Write_locked b (l, emit w [EvLock])),
     (fst (snd (Write_locked b (l, emit w [EvLock]))),
      emit (snd (snd (Write_locked b (l, emit w [EvLock])))) [EvUnlock])).
Proof.
  intros Hacc. rewrite (Write_accepted l w b Hacc).
  destruct (Write_locked b (l, emit w [EvLock])) as [r [l' w']]. reflexivity.
Qed.

Lemma Write_MaxFiles l w b m :
  Write b (set_MaxFiles l m, w)
  = (fst (Write b (l, w)),
     (set_MaxFiles (fst (snd (Write b (l, w)))) m, snd (snd (Write b (l, w))))).
Proof.
  destruct (logFilter l b) eqn:Hacc.
  2:{ rewrite (Write_rejected l w b Hacc).
      rewrite (Write_rejected (set_MaxFiles l m) w b)
        by (destruct l; exact Hacc).
      reflexivity. }
  assert (Hacc' : logFilter (set_MaxFiles l m) b = true)
    by (destruct l; exact Hacc).
  rewrite (Write_accepted_proj l w b Hacc).
  rewrite (Write_accepted_proj _ w b Hacc').
  cbn [fst snd].
  generalize (emit w [EvLock]). clear w. intros w.
  destruct (FileInfo l) as [h|] eqn:Hh.
  { now rewrite (Write_locked_MaxFiles l w b h m Hh). }
  assert (Hh' : FileInfo (set_MaxFiles l m) = None) by (destruct l; exact Hh).
  rewrite (Write_locked_lazy l w b Hh).
  rewrite (Write_locked_lazy _ w b Hh').
  rewrite active_path_MaxFiles.
  destruct (open_result (env w) (S (calls w)) (active_path (env w) l)) as [f|e].
  - rewrite opened_MaxFiles.
    assert (Hh1 : FileInfo (opened (env w) l (reading w) f) = Some f)
      by (destruct l; reflexivity).
    now rewrite (Write_locked_MaxFiles _ _ b f m Hh1).
  - cbn [fst snd]. now rewrite with_paths_MaxFiles.
Qed.

(** ** The loop of [pruneFiles] *)

Lemma firstn_skipn_succ {A} (xs : list A) i x k :
  nth_error xs i = Some x ->
  firstn (S k) (skipn i xs) = x :: firstn k (skipn (S i) xs).
Proof.
  revert i; induction xs as [|y ys IH]; intros [|i] H; try discriminate.
  - injection H as ->. reflexivity.
  - exact (IH i H).
Qed.

(** Within the bounds of [matches] the loop does not panic and removes the
    next [todo] matches in order, stopping at the first removal that fails. *)
Lemma prune_loop_run matches l todo :
  forall i w, i + todo <= List.length matches ->
    exists r w' k evs,
      prune_loop matches i todo (l, w) = (Returned r, (l, w'))
      /\ env w' = env w
      /\ trace w' = (trace w ++ evs)%list
      /\ Forall (fun ev => is_EvRemove ev = true) evs
      /\ removed_paths evs = firstn k (skipn i matches)
      /\ k <= todo
      /\ (r = None -> k = todo)
      /\ ((forall j p, remove_result (env w) j p = None) -> r = None).
Proof.
  induction todo as [|todo IH]; intros i w Hb.
  - exists None, w, 0, []. cbn. rewrite app_nil_r. repeat split; auto.
  - cbn [prune_loop].
    destruct (nth_error matches i) as [m|] eqn:Hm.
    2:{ apply nth_error_None in Hm. lia. }
    unfold bind at 1, Remove, syscall. cbn [fst snd].
    destruct (remove_result (env w) (calls w) m) as [e|] eqn:Hr.
    + exists (Some e), (emit w [EvRemove m (Some e)]), 1, [EvRemove m (Some e)].
      unfold ret. cbn [env trace emit removed_paths flat_map app].
      rewrite (firstn_skipn_succ matches i m 0 Hm). cbn [firstn].
      repeat split; auto; try lia; try discriminate.
      intros Hall. rewrite Hall in Hr. discriminate.
    + destruct (IH (S i) (emit w [EvRemove m None]) ltac:(lia))
        as (r & w' & k & evs & E & He & Ht & Hf & Hp & Hk & Hn & Hall).
      exists r, w', (S k), (EvRemove m None :: evs).
      cbn [env trace emit] in He, Ht, Hall.
      rewrite E, Ht, <- app_assoc.
      cbn [removed_paths flat_map app]. fold (removed_paths evs).
      rewrite Hp, (firstn_skipn_succ matches i m k Hm).
      repeat split; auto; try lia.
Qed.

(** Whatever it meets, the loop only removes files. *)
Lemma prune_loop_events matches l todo :
  forall i w, exists r w' evs,
    prune_loop matches i todo (l, w) = (r, (l, w'))
    /\ trace w' = (trace w ++ evs)%list.
Proof.
  induction todo as [|todo IH]; intros i w.
  - exists (Returned None), w, []. cbn. now rewrite app_nil_r.
  - cbn [prune_loop].
    destruct (nth_error matches i) as [m|].
    2:{ exists Panicked, w, []. cbn. now rewrite app_nil_r. }
    unfold bind at 1, Remove, syscall. cbn [fst snd].
    destruct (remove_result (env w) (calls w) m) as [e|].
    + eexists _, _, [_]. unfold ret. split; reflexivity.
    + destruct (IH (S i) (emit w [EvRemove m None])) as (r & w' & evs & E & Ht).
      exists r, w', (EvRemove m None :: evs). rewrite E, Ht.
      cbn [trace emit]. now rewrite <- app_assoc.
Qed.

Lemma pruneFiles_run l w :
  pruneFiles (l, w)
  = if (MaxFiles l =? 0)%Z then (Returned None, (l, w))
    else match glob_result (env w) (calls w) (globExpression (env w) l) with
         | inr err =>
             (Returned (Some err),
              (l, emit w [EvGlob (globExpression (env w) l)]))
         | inl matches =>
             prune_loop matches 0
               (Z.to_nat (wrap64 (Z.of_nat (List.length matches) - MaxFiles l)))
               (l, emit w [EvGlob (globExpression (env w) l)])
         end.
Proof.
  unfold pruneFiles. run_monad.
  destruct (MaxFiles l =? 0)%Z; [reflexivity|].
  run_monad. fold (globExpression (env w) l).
  destruct (glob_result (env w) (calls w) (globExpression (env w) l));
    reflexivity.
Qed.

(** ** The creation time lies in the past *)

Lemma LastCreated_set_BytesWritten l n :
  LastCreated (set_BytesWritten l n) = LastCreated l.
Proof. destruct l. reflexivity. Qed.

Lemma LastCreated_opened e l t f : LastCreated (opened e l t f) = t.
Proof. destruct l. reflexivity. Qed.

Lemma LastCreated_with_paths e l t :
  LastCreated (with_paths e l t) = LastCreated l.
Proof. destruct l. reflexivity. Qed.

Lemma FileInfo_with_paths e l t : FileInfo (with_paths e l t) = FileInfo l.
Proof. destruct l. reflexivity. Qed.

Lemma FileInfo_opened e l t f : FileInfo (opened e l t f) = Some f.
Proof. destruct l. reflexivity. Qed.

Lemma Write_locked_creation_in_past l w b h :
  FileInfo l = Some h -> (LastCreated l <= clock w)%Z ->
  (LastCreated (fst (snd (Write_locked b (l, w))))
   <= clock (snd (snd (Write_locked b (l, w)))))%Z.
Proof.
  intros Hh Hpast. pose proof (reading_ge w) as Hrw.
  destruct (rotation_due l (time.Sub (reading w) (LastCreated l))) eqn:Hdue.
  - destruct (rotate_due l w h Hh Hdue) as (w2 & evs & E & _ & Hcl & _).
    pose proof (reading_ge w2) as Hr2.
    rewrite (Write_locked_rotating l w b h Hh Hdue w2
               (E l (rotates_like_refl l))).
    destruct (open_result (env w2) (S (calls w2)) (active_path (env w2) l));
      cbn [fst snd clock emit tick].
    + rewrite LastCreated_set_BytesWritten, LastCreated_opened. lia.
    + rewrite LastCreated_with_paths. lia.
  - rewrite (Write_locked_steady l w b h Hh Hdue).
    cbn [fst snd clock emit tick]. rewrite LastCreated_set_BytesWritten. lia.
Qed.

(** Once a writer has a handle whose creation time is not in the future,
    that stays so over every call of [Write]; a writer that starts without
    a handle gets there with its first successful open. *)
Lemma Write_keeps_creation_in_past l w b :
  (FileInfo l <> None -> (LastCreated l <= clock w)%Z) ->
  FileInfo (fst (after b (l, w))) <> None ->
  (LastCreated (fst (after b (l, w))) <= clock (snd (after b (l, w))))%Z.
Proof.
  intros Hinv. unfold after.
  destruct (logFilter l b) eqn:Hacc.
  2:{ rewrite (Write_rejected l w b Hacc). exact Hinv. }
  rewrite (Write_accepted_proj l w b Hacc). cbn [fst snd clock emit].
  destruct (FileInfo l) as [h|] eqn:Hh.
  { intros _. apply (Write_locked_creation_in_past l (emit w [EvLock]) b h Hh).
    cbn [clock emit]. apply Hinv. discriminate. }
  rewrite (Write_locked_lazy l (emit w [EvLock]) b Hh).
  destruct (open_result (env (emit w [EvLock])) (S (calls (emit w [EvLock])))
              (active_path (env (emit w [EvLock])) l)) as [f|e].
  - intros _.
    apply (Write_locked_creation_in_past _ _ b f (FileInfo_opened _ _ _ _)).
    rewrite LastCreated_opened. cbn [clock emit tick]. lia.
  - cbn [fst snd]. rewrite FileInfo_with_paths, Hh. intros H. now elim H.
Qed.

(** ** Properties of the writer *)

(** C4.  A record that the level filter rejects is dropped at once: [Write]
    returns 0 and no error, and the writer and the world are exactly as
    before, so the lock was not taken, no file was opened, created or
    changed (also when no file was open yet), and [BytesWritten] and every
    other field are untouched. *)
Theorem C4_rejected_record_changes_nothing l w b :
  logFilter l b = false -> Write b (l, w) = ((0%Z, None), (l, w)).
Proof. exact (Write_rejected l w b). Qed.

Lemma C4_rejected_record_witness :
  logFilter deaf_writer (record 50) = false
  /\ FileInfo deaf_writer = None
  /\ Write (record 50) (deaf_writer, start (calm []) 0%Z)
     = ((0%Z, None), (deaf_writer, start (calm []) 0%Z)).
Proof.
  split; [reflexivity|]. split; [reflexivity|].
  apply C4_rejected_record_changes_nothing. reflexivity.
Defined.

(** C1, as stated, fails: with MaxBytes = 100 and BytesWritten = 60 an
    accepted record of 50 bytes is written to the open file without any
    rotation, and BytesWritten is 110 afterwards, not 50. *)
Lemma C1_no_rotation_below_limit :
  MaxBytes (running 0%Z 60%Z) = 100%Z
  /\ BytesWritten (running 0%Z 60%Z) = 60%Z
  /\ logFilter (running 0%Z 60%Z) (record 50) = true
  /\ List.length (record 50) = 50
  /\ added (record 50) (running 0%Z 60%Z, start (calm []) 0%Z)
     = [EvLock; EvWrite 7 (record 50) 50 None; EvUnlock]
  /\ BytesWritten (fst (after (record 50) (running 0%Z 60%Z, start (calm []) 0%Z)))
     = 110%Z.
Proof. vm_compute. repeat split. Qed.

(** C1, amended.  Size-based rotation is decided on the bytes counted before
    the incoming record.  With MaxBytes = 100, BytesWritten = 60 and the
    time threshold not reached, an accepted record of 50 bytes is written to
    the open file without rotation and leaves BytesWritten = 110.  Once
    BytesWritten >= MaxBytes > 0, the next accepted [Write] rotates first
    (the old file is closed and renamed to [rotateName], the directory is
    walked, the active path is opened again) and then writes the record to
    the new file, leaving BytesWritten equal to the length of that record. *)
Theorem C1_size_rotation_counts_bytes_already_written :
  (forall l w b h,
      FileInfo l = Some h -> logFilter l b = true ->
      MaxBytes l = 100%Z -> BytesWritten l = 60%Z -> List.length b = 50 ->
      (time.Sub (time_of_check w) (LastCreated l) < duration l)%Z ->
      exists n err,
        trace (snd (after b (l, w)))
        = (trace w ++ [EvLock; EvWrite h b n err; EvUnlock])%list
        /\ fst (after b (l, w)) = set_BytesWritten l 110%Z)
  /\ (forall l w b h,
        FileInfo l = Some h -> logFilter l b = true ->
        (MaxBytes l > 0)%Z -> (BytesWritten l >= MaxBytes l)%Z ->
        exists rc rr evs ro tail,
          trace (snd (after b (l, w)))
          = (trace w ++ [EvLock; EvClose h rc;
                         EvRename (fullName l) (rotateName l) rr;
                         EvWalk (filepath.Dir (fullName l))]
                     ++ evs ++ EvOpenFile (active_path (env w) l) ro :: tail)%list
          /\ Forall (fun ev => is_EvRemove ev = true) evs
          /\ match ro with
             | inl f =>
                 exists n err,
                   tail = [EvWrite f b n err; EvUnlock]
                   /\ FileInfo (fst (after b (l, w))) = Some f
                   /\ BytesWritten (fst (after b (l, w)))
                      = wrap64 (Z.of_nat (List.length b))
             | inr e => tail = [EvUnlock]
             end).
Proof.
  split.
  - intros l w b h Hh Hacc Hmax Hbw Hlen Htime.
    assert (Hdue : rotation_due l
              (time.Sub (reading (emit w [EvLock])) (LastCreated l)) = false).
    { unfold rotation_due. rewrite Hmax, Hbw.
      change ((60 >=? 100)%Z && (100 >? 0)%Z) with false. cbn [orb].
      unfold time_of_check in Htime. rewrite Z.geb_leb. apply Z.leb_gt. lia. }
    unfold after. rewrite (Write_steady l w b h Hh Hacc Hdue).
    cbn [fst snd trace emit tick]. rewrite <- !app_assoc.
    eexists _, _. split; [reflexivity|].
    rewrite Hbw, Hlen. reflexivity.
  - intros l w b h Hh Hacc Hmax Hbw.
    assert (Hdue : rotation_due l
              (time.Sub (time_of_check w) (LastCreated l)) = true).
    { apply rotation_due_spec. left. lia. }
    destruct (Write_rotating_outcome l w b h Hh Hacc Hdue)
      as (rc & rr & evs & ro & tail & t & Ht & Hf & _ & _ & Hro).
    exists rc, rr, evs, ro, tail. unfold after.
    split; [exact Ht|]. split; [exact Hf|].
    destruct ro as [f|e].
    + destruct Hro as (n & err & Htail & _ & _ & _ & Hl).
      exists n, err. rewrite Hl. split; [exact Htail|].
      destruct l; split; reflexivity.
    + apply Hro.
Qed.

Lemma C1_size_rotation_witness :
  FileInfo (running 0%Z 60%Z) = Some 7
  /\ logFilter (running 0%Z 60%Z) (record 50) = true
  /\ MaxBytes (running 0%Z 60%Z) = 100%Z
  /\ BytesWritten (running 0%Z 60%Z) = 60%Z
  /\ List.length (record 50) = 50
  /\ (time.Sub (time_of_check (start (calm []) 0%Z))
        (LastCreated (running 0%Z 60%Z)) < duration (running 0%Z 60%Z))%Z
  /\ exists n err,
       trace (snd (after (record 50) (running 0%Z 60%Z, start (calm []) 0%Z)))
       = (trace (start (calm []) 0%Z)
            ++ [EvLock; EvWrite 7 (record 50) n err; EvUnlock])%list
       /\ fst (after (record 50) (running 0%Z 60%Z, start (calm []) 0%Z))
          = set_BytesWritten (running 0%Z 60%Z) 110%Z.
Proof.
  do 6 (split; [vm_compute; reflexivity|]).
  apply (proj1 C1_size_rotation_counts_bytes_already_written);
    vm_compute; reflexivity.
Defined.

(** C2: what the code does.  When the write gets only [n] bytes through and
    reports an error, [Write] returns those [n] bytes and the error, but
    BytesWritten has been advanced by the whole length of the record before
    the write was attempted. *)
Theorem C2_counter_advances_by_whole_record l w b h n e :
  FileInfo l = Some h -> logFilter l b = true ->
  rotation_due l (time.Sub (time_of_check w) (LastCreated l)) = false ->
  write_result (env w) (S (S (calls w))) h b = Some (n, e) ->
  fst (Write b (l, w)) = (Z.of_nat (Nat.min n (List.length b)), Some e)
  /\ BytesWritten (fst (after b (l, w)))
     = wrap64 (BytesWritten l + Z.of_nat (List.length b)).
Proof.
  intros Hh Hacc Hdue Hw. unfold after.
  rewrite (Write_steady l w b h Hh Hacc Hdue), Hw.
  cbn [fst snd short_write]. split; [reflexivity|]. destruct l; reflexivity.
Qed.

Lemma C2_short_write_witness :
  FileInfo (running 0%Z 0%Z) = Some 7
  /\ logFilter (running 0%Z 0%Z) (record 50) = true
  /\ rotation_due (running 0%Z 0%Z)
       (time.Sub (time_of_check (start (short_disk 20) 0%Z))
          (LastCreated (running 0%Z 0%Z))) = false
  /\ write_result (env (start (short_disk 20) 0%Z)) 2 7 (record 50)
     = Some (20, Errno 28)
  /\ fst (Write (record 50) (running 0%Z 0%Z, start (short_disk 20) 0%Z))
     = (20%Z, Some (Errno 28))
  /\ BytesWritten
       (fst (after (record 50) (running 0%Z 0%Z, start (short_disk 20) 0%Z)))
     = 50%Z.
Proof.
  do 4 (split; [vm_compute; reflexivity|]).
  apply (C2_counter_advances_by_whole_record
           (running 0%Z 0%Z) (start (short_disk 20) 0%Z) (record 50) 7 20
           (Errno 28)); vm_compute; reflexivity.
Defined.

(** C3.  For an accepted [Write] on a writer that has a handle, a rotation
    takes place exactly when (BytesWritten >= MaxBytes and MaxBytes > 0) or
    the time since LastCreated, read once the lock is held, is at least the
    rotation interval; the time since LastCreated is the saturated
    difference of [time.Sub], which compares like the plain difference for
    every interval above the least [Duration].  In particular, with an
    interval of one hour and a clock at least one hour past LastCreated the
    call rotates whatever BytesWritten is.  No call of [Write], on any
    writer, rotates more than once. *)
Theorem C3_rotation_exactly_when_due :
  (forall l w b h,
      FileInfo l = Some h -> logFilter l b = true ->
      exists evs,
        trace (snd (after b (l, w))) = (trace w ++ evs)%list
        /\ (rotations evs = 1 <-> rotation_condition l (time_of_check w))
        /\ (rotations evs = 0 <-> ~ rotation_condition l (time_of_check w))
        /\ (duration l = time.Hour ->
            (clock w - LastCreated l >= time.Hour)%Z -> rotations evs = 1)
        /\ ((time.minDuration < duration l <= time.maxDuration)%Z ->
            (rotations evs = 1
             <-> ((BytesWritten l >= MaxBytes l)%Z /\ (MaxBytes l > 0)%Z)
                 \/ (time_of_check w - LastCreated l >= duration l)%Z)))
  /\ (forall l w b,
        exists evs,
          trace (snd (after b (l, w))) = (trace w ++ evs)%list
          /\ rotations evs <= 1).
Proof.
  split.
  - intros l w b h Hh Hacc.
    destruct (Write_events_with_handle l w b h Hh Hacc) as (evs & Ht & Hr & _).
    exists evs. split; [exact Ht|].
    pose proof (rotation_due_spec l (time_of_check w)) as Hspec.
    unfold time_of_check in *.
    destruct (rotation_due l
                (time.Sub (reading (emit w [EvLock])) (LastCreated l))) eqn:Hdue.
    + assert (Hc : rotation_condition l (reading (emit w [EvLock])))
        by now apply Hspec.
      rewrite Hr. repeat split; auto; try discriminate.
      * intros Hn. now elim Hn.
      * intros _. destruct Hc as [Hc | Hc]; [now left | right].
        now apply Sub_ge.
    + assert (Hc : ~ rotation_condition l (reading (emit w [EvLock]))).
      { intros Hc. apply Hspec in Hc. discriminate. }
      rewrite Hr. repeat split; auto; try discriminate.
      * intros Hc'. now elim Hc.
      * intros Hd Hage. elim Hc. right. rewrite Hd.
        pose proof (reading_ge (emit w [EvLock])) as Hrd. cbn [clock emit] in Hrd.
        apply Sub_ge; [vm_compute; split; [reflexivity | discriminate]|].
        lia.
      * intros [Hc' | Hc']; elim Hc; [now left | right].
        now apply Sub_ge.
  - intros l w b.
    destruct (Write_events l w b) as (evs & Ht & Hr & _).
    exists evs. split; assumption.
Qed.

Lemma C3_rotation_witness :
  FileInfo (running 0%Z 0%Z) = Some 7
  /\ logFilter (running 0%Z 0%Z) (record 50) = true
  /\ duration (running 0%Z 0%Z) = time.Hour
  /\ (clock (start (calm []) time.Hour) - LastCreated (running 0%Z 0%Z)
      >= time.Hour)%Z
  /\ exists evs,
       trace (snd (after (record 50) (running 0%Z 0%Z, start (calm []) time.Hour)))
       = (trace (start (calm []) time.Hour) ++ evs)%list
       /\ rotations evs = 1.
Proof.
  do 3 (split; [vm_compute; reflexivity|]).
  split; [vm_compute; discriminate|].
  destruct (proj1 C3_rotation_exactly_when_due
              (running 0%Z 0%Z) (start (calm []) time.Hour) (record 50) 7)
    as (evs & Ht & _ & _ & Hhour & _); [vm_compute; reflexivity ..|].
  exists evs. split; [exact Ht|].
  apply Hhour; [vm_compute; reflexivity | vm_compute; discriminate].
Defined.

(** C10.  With a rotation interval of zero the time condition holds on
    every accepted [Write] made once the active file exists, whatever
    MaxBytes and BytesWritten are: each such call rotates.  A zero interval
    does not switch time-based rotation off. *)
Theorem C10_zero_interval_rotates_on_every_write l w b h :
  FileInfo l = Some h -> logFilter l b = true ->
  duration l = 0%Z -> (LastCreated l <= clock w)%Z ->
  rotation_condition l (time_of_check w)
  /\ exists evs,
       trace (snd (after b (l, w))) = (trace w ++ evs)%list
       /\ rotations evs = 1.
Proof.
  intros Hh Hacc Hd Hpast.
  assert (Hc : rotation_condition l (time_of_check w)).
  { right. rewrite Hd. unfold time_of_check.
    pose proof (reading_ge (emit w [EvLock])) as Hrd. cbn [clock emit] in Hrd.
    apply Sub_ge; [vm_compute; split; [reflexivity | discriminate]|]. lia. }
  split; [exact Hc|].
  destruct (Write_events_with_handle l w b h Hh Hacc) as (evs & Ht & Hr & _).
  exists evs. split; [exact Ht|].
  apply rotation_due_spec in Hc. unfold time_of_check in Hc.
  now rewrite Hr, Hc.
Qed.

Lemma C10_zero_interval_witness :
  FileInfo (set_duration (running 0%Z 0%Z) 0%Z) = Some 7
  /\ logFilter (set_duration (running 0%Z 0%Z) 0%Z) (record 50) = true
  /\ duration (set_duration (running 0%Z 0%Z) 0%Z) = 0%Z
  /\ (LastCreated (set_duration (running 0%Z 0%Z) 0%Z)
      <= clock (start (calm []) 0%Z))%Z
  /\ exists evs,
       trace (snd (after (record 50)
                     (set_duration (running 0%Z 0%Z) 0%Z, start (calm []) 0%Z)))
       = (trace (start (calm []) 0%Z) ++ evs)%list
       /\ rotations evs = 1.
Proof.
  do 3 (split; [vm_compute; reflexivity|]).
  split; [vm_compute; discriminate|].
  apply (C10_zero_interval_rotates_on_every_write
           (set_duration (running 0%Z 0%Z) 0%Z) (start (calm []) 0%Z)
           (record 50) 7);
    vm_compute; (reflexivity || discriminate).
Defined.

(** C5, as stated, fails: the files removed are those whose name ends in
    ".log", whatever the extension of the base file is.  In a rotation of
    logs/app.txt that finds a rotated text file and a log, both modified 40
    days ago, the log is removed and the text file, which has the base
    file's extension, is kept. *)
Lemma C5_extension_is_always_log :
  fileExt (txt_running noon 200%Z) = ".txt"
  /\ lstat_tree (calm (old_txt_and_log noon)) 3 "logs"
     = NDir "logs" 0%Z
         (inl [NFile "app-20231001000000.txt" (noon - 40 * day)%Z;
               NFile "old.log" (noon - 40 * day)%Z])
  /\ (noon - 40 * day + retention
      < clock (start (calm (old_txt_and_log noon)) noon))%Z
  /\ trace (snd (snd (rotate (txt_running noon 200%Z,
                              start (calm (old_txt_and_log noon)) noon))))
     = [EvClose 7 None;
        EvRename "logs/app.txt" "logs/app-20231114221320.txt" None;
        EvWalk "logs"; EvRemove "logs/old.log" None;
        EvOpenFile "logs/app.txt" (inl 7)].
Proof. vm_compute. repeat split. Qed.

(** A second way in which the walk differs: it ends at the first log that
    is not old enough, so an old log listed after it is kept. *)
Lemma stale_file_after_fresh_file_is_kept :
  lstat_tree (calm (fresh_then_stale noon)) 3 "logs"
  = NDir "logs" 0%Z (inl [NFile "a.log" noon; NFile "b.log" (noon - 40 * day)%Z])
  /\ trace (snd (snd (rotate (running noon 200%Z,
                              start (calm (fresh_then_stale noon)) noon))))
     = [EvClose 7 None;
        EvRename "logs/app.log" "logs/app-20231114221320.log" None;
        EvWalk "logs"; EvOpenFile "logs/app.log" (inl 6)].
Proof. vm_compute. repeat split. Qed.

(** C5, amended.  During every rotation the directory of the active file is
    walked, and the only files removed are files found by the walk whose
    name ends in ".log" and whose modification time lies more than 30 days
    back: a file modified within the last 30 days is never removed.  In each
    directory the walk ends at the first ".log" file that is not that old,
    so older files listed after it stay: when the listing starts with files
    whose logs are all older than 30 days, followed by nothing or by a
    ".log" file that is not, exactly the logs among those leading files are
    removed, in order.  [MaxFiles] plays no part. *)
Theorem C5_age_pruning_during_rotation l w h :
  FileInfo l = Some h ->
  rotation_due l (time.Sub (reading w) (LastCreated l)) = true ->
  let root := filepath.Dir (fullName l) in
  let n := lstat_tree (env w) (S (S (S (calls w)))) root in
  let w' := snd (snd (rotate (l, w))) in
  exists rc rr evs ro,
    trace w'
    = (trace w ++ [EvClose h rc; EvRename (fullName l) (rotateName l) rr;
                   EvWalk root]
               ++ evs ++ [EvOpenFile (active_path (env w) l) ro])%list
    /\ Forall (stale_log_removal (files_of root n) (clock w')) evs
    /\ (forall name mt pre rest,
          n = NDir name mt (inl (pre ++ rest)%list) ->
          forallb is_NFile pre = true -> logs_stale pre (clock w) ->
          rest = [] \/ starts_fresh rest (clock w') ->
          removed_paths evs = map (filepath.Join2 root) (log_names pre))
    /\ (forall m,
          rotate (set_MaxFiles l m, w)
          = (fst (rotate (l, w)),
             (set_MaxFiles (fst (snd (rotate (l, w)))) m, w'))).
Proof.
  intros Hh Hdue root n w'.
  destruct (rotate_due l w h Hh Hdue)
    as (w2 & evs & E & He & Hcl & Ht & Hf & Hflat).
  fold root in Ht, Hf, Hflat. fold n in Hf, Hflat.
  pose proof (E l (rotates_like_refl l)) as El.
  pose proof (reading_ge w2) as Hrd.
  assert (Hw' : w' = emit (tick w2 (reading w2))
                       [EvOpenFile (active_path (env w) l)
                          (open_result (env w) (S (calls w2))
                             (active_path (env w) l))]).
  { subst w'. rewrite El, openNew_run, He.
    destruct (open_result (env w) (S (calls w2)) (active_path (env w) l));
      reflexivity. }
  assert (Hclock : clock w' = reading w2) by (rewrite Hw'; reflexivity).
  exists (close_result (env w) (S (calls w)) h),
    (rename_result (env w) (S (S (calls w))) (fullName l) (rotateName l)),
    evs, (open_result (env w) (S (calls w2)) (active_path (env w) l)).
  split; [|split; [|split]].
  - rewrite Hw'. cbn [trace emit tick]. rewrite Ht, <- !app_assoc. reflexivity.
  - eapply Forall_impl; [|exact Hf]. intros ev.
    apply stale_log_removal_weaken; [apply incl_refl | lia].
  - intros name mt pre rest Hn Hfiles Hst Hrest.
    apply (Hflat name mt pre rest Hn Hfiles Hst).
    destruct Hrest as [-> | (nm & m0 & r0 & -> & Hs & Hfresh)]; [now left|].
    right. exists nm, m0, r0. repeat split; auto. lia.
  - intros m. subst w'.
    rewrite (E _ (set_MaxFiles_like l m)), El, !openNew_run.
    rewrite active_path_MaxFiles.
    destruct (open_result (env w2) (S (calls w2)) (active_path (env w2) l));
      cbn [fst snd].
    + now rewrite opened_MaxFiles.
    + now rewrite with_paths_MaxFiles.
Qed.

Lemma C5_age_pruning_witness :
  FileInfo (running noon 200%Z) = Some 7
  /\ rotation_due (running noon 200%Z)
       (time.Sub (reading (start (calm (all_stale noon)) noon))
          (LastCreated (running noon 200%Z))) = true
  /\ exists evs,
       Forall (fun ev => is_EvRemove ev = true) evs
       /\ removed_paths evs = ["logs/app-1.log"; "logs/app-2.log"].
Proof.
  do 2 (split; [vm_compute; reflexivity|]).
  destruct (C5_age_pruning_during_rotation
              (running noon 200%Z) (start (calm (all_stale noon)) noon) 7)
    as (rc & rr & evs & ro & _ & Hf & Hflat & _); [vm_compute; reflexivity ..|].
  exists evs. split; [exact (removals_only _ _ _ Hf)|].
  rewrite (Hflat "logs" 0%Z (all_stale noon) []).
  - vm_compute. reflexivity.
  - vm_compute. reflexivity.
  - reflexivity.
  - intros name mt Hin _. vm_compute in Hin.
    destruct Hin as [H | [H | [H | []]]]; injection H as _ <-;
      vm_compute; reflexivity.
  - now left.
Defined.

(** C6: what the code does with a base name that has a percent sign.  The
    name is made part of the format handed to [fmt.Sprintf]; for "100%.log"
    the format is "100%%s.log", in which "%%" is a literal percent sign and
    no verb is left for the operand, so neither path is the directory joined
    with the base name, and the timestamp does not come before the
    extension. *)
Theorem C6_percent_sign_in_base_name :
  fileNamePattern percent_writer = "100%%s.log"
  /\ (forall e, active_path e percent_writer = "logs/100%s.log%!(EXTRA string=)")
  /\ rotated_path (calm []) percent_writer noon
     = "logs/100%s.log%!(EXTRA string=-20231114221320)".
Proof.
  split; [vm_compute; reflexivity|].
  split; [intros e; vm_compute; reflexivity | vm_compute; reflexivity].
Qed.

(** C7, as stated, fails in its last part.  A writer opens logs/app.log at
    00:00:00; two hours later a rotation cannot rename the file and cannot
    open the active path again; the next call rotates again, and now the
    file created at 00:00:00 is renamed to the path stamped 02:00:00, the
    time of the failed attempt, while LastCreated still is the creation time
    of that file. *)
Lemma C7_rename_target_after_failed_reopen :
  fst (Write (record 5) (fresh_writer, start flaky 0%Z)) = (5%Z, None)
  /\ fst (Write (record 5) (after (record 5) (fresh_writer, start flaky 0%Z)))
     = (0%Z, Some (Errno 13))
  /\ LastCreated
       (fst (after (record 5) (after (record 5) (fresh_writer, start flaky 0%Z))))
     = 1000%Z
  /\ rotated_path flaky fresh_writer 1000%Z = "logs/app-19700101000000.log"
  /\ added (record 5)
       (after (record 5) (after (record 5) (fresh_writer, start flaky 0%Z)))
     = [EvLock; EvClose 2 None;
        EvRename "logs/app.log" "logs/app-19700101020000.log" None;
        EvWalk "logs"; EvOpenFile "logs/app.log" (inl 20);
        EvWrite 20 (record 5) 5 None; EvUnlock].
Proof. vm_compute. repeat split. Qed.

(** C7, amended.  Failures of Close and Rename during a rotation are never
    passed on to the caller of [Write]: whatever they return, the rotation
    goes on to walk the directory and to open the active path again, and
    what [Write] returns is the error of that open or else the result of
    writing the record.  The old file is renamed to the stored [rotateName].
    [openNew] computes that path, stamped with the time of the attempt,
    before it opens the file, so after every successful [openNew], and for
    as long as no later [openNew] fails, it is the rotated path stamped with
    LastCreated, the creation time of the active file. *)
Theorem C7_rotation_ignores_close_and_rename_errors :
  (forall l w b h,
      FileInfo l = Some h -> logFilter l b = true ->
      rotation_due l (time.Sub (time_of_check w) (LastCreated l)) = true ->
      exists rc rr evs ro tail,
        trace (snd (after b (l, w)))
        = (trace w ++ [EvLock; EvClose h rc;
                       EvRename (fullName l) (rotateName l) rr;
                       EvWalk (filepath.Dir (fullName l))]
                   ++ evs ++ EvOpenFile (active_path (env w) l) ro :: tail)%list
        /\ rc = close_result (env w) (S (S (calls w))) h
        /\ rr = rename_result (env w) (S (S (S (calls w))))
                  (fullName l) (rotateName l)
        /\ Forall (fun ev => is_EvRemove ev = true) evs
        /\ match ro with
           | inl f =>
               exists n err,
                 tail = [EvWrite f b n err; EvUnlock]
                 /\ fst (Write b (l, w)) = (Z.of_nat n, err)
           | inr e =>
               tail = [EvUnlock] /\ fst (Write b (l, w)) = (0%Z, Some e)
           end)
  /\ (forall l0 w0 l w,
        openNew (l0, w0) = (None, (l, w)) ->
        fullName l = active_path (env w0) l
        /\ rotateName l = rotated_path (env w0) l (LastCreated l)
        /\ LastCreated l = clock w)
  /\ (forall l w b h,
        FileInfo l = Some h -> logFilter l b = true ->
        rotation_due l (time.Sub (time_of_check w) (LastCreated l)) = false ->
        fst (after b (l, w))
        = set_BytesWritten l
            (wrap64 (BytesWritten l + Z.of_nat (List.length b)))).
Proof.
  split; [|split].
  - intros l w b h Hh Hacc Hdue.
    destruct (Write_rotating l w b h Hh Hdue)
      as (w2 & evs & He & Hcl & Ht & Hf & _ & HW).
    specialize (HW l (rotates_like_refl l) Hacc). cbv zeta in HW.
    apply removals_only in Hf.
    eexists _, _, evs, (open_result (env w) (S (calls w2)) (active_path (env w) l)).
    unfold after. rewrite HW.
    destruct (open_result (env w) (S (calls w2)) (active_path (env w) l)) as [f|e].
    + eexists. cbn [fst snd trace emit tick]. rewrite Ht, <- !app_assoc.
      split; [reflexivity|]. do 2 (split; [reflexivity|]).
      split; [assumption|].
      eexists _, _. split; reflexivity.
    + eexists. cbn [fst snd trace emit tick]. rewrite Ht, <- !app_assoc.
      split; [reflexivity|]. do 2 (split; [reflexivity|]).
      split; [assumption|]. split; reflexivity.
  - intros l0 w0 l w E. rewrite openNew_run in E.
    destruct (open_result (env w0) (S (calls w0)) (active_path (env w0) l0));
      [|discriminate].
    injection E as <- <-. destruct l0. repeat split.
  - intros l w b h Hh Hacc Hdue. unfold after.
    now rewrite (Write_steady l w b h Hh Hacc Hdue).
Qed.

Lemma C7_rotation_witness :
  FileInfo (running 0%Z 200%Z) = Some 7
  /\ logFilter (running 0%Z 200%Z) (record 5) = true
  /\ rotation_due (running 0%Z 200%Z)
       (time.Sub (time_of_check (start grumpy 0%Z))
          (LastCreated (running 0%Z 200%Z))) = true
  /\ exists evs ro tail,
       trace (snd (after (record 5) (running 0%Z 200%Z, start grumpy 0%Z)))
       = ([] ++ [EvLock; EvClose 7 (Some (Errno 9));
                 EvRename "logs/app.log" "logs/app-19700101000000.log"
                   (Some (Errno 13));
                 EvWalk "logs"]
             ++ evs ++ EvOpenFile "logs/app.log" ro :: tail)%list
       /\ match ro with
          | inl f =>
              exists n err,
                tail = [EvWrite f (record 5) n err; EvUnlock]
                /\ fst (Write (record 5) (running 0%Z 200%Z, start grumpy 0%Z))
                   = (Z.of_nat n, err)
          | inr e =>
              tail = [EvUnlock]
              /\ fst (Write (record 5) (running 0%Z 200%Z, start grumpy 0%Z))
                 = (0%Z, Some e)
          end.
Proof.
  do 3 (split; [vm_compute; reflexivity|]).
  destruct (proj1 C7_rotation_ignores_close_and_rename_errors
              (running 0%Z 200%Z) (start grumpy 0%Z) (record 5) 7)
    as (rc & rr & evs & ro & tail & Ht & -> & -> & _ & Hro);
    [vm_compute; reflexivity ..|].
  exists evs, ro, tail. split; [exact Ht | exact Hro].
Defined.

(** C8, as stated, fails: a first accepted [Write] whose open fails returns
    0 and the error and keeps no handle, but the writer is not as before:
    [fullName] and [rotateName] now hold the paths computed for the failed
    attempt. *)
Lemma C8_failed_open_changes_names :
  after (record 5) (fresh_writer, start locked_dir 0%Z)
  = (with_paths locked_dir fresh_writer 1000%Z,
     mkWorld locked_dir 4 1000%Z
       [EvLock; EvOpenFile "logs/app.log" (inr (Errno 13)); EvUnlock])
  /\ fst (Write (record 5) (fresh_writer, start locked_dir 0%Z))
     = (0%Z, Some (Errno 13))
  /\ fullName fresh_writer = ""
  /\ rotateName fresh_writer = ""
  /\ fullName (with_paths locked_dir fresh_writer 1000%Z) = "logs/app.log"
  /\ rotateName (with_paths locked_dir fresh_writer 1000%Z)
     = "logs/app-19700101000000.log"
  /\ fst (after (record 5) (fresh_writer, start locked_dir 0%Z)) <> fresh_writer.
Proof.
  do 6 (split; [vm_compute; reflexivity|]).
  intros H. apply (f_equal fullName) in H. vm_compute in H. discriminate.
Qed.

(** C8, amended.  When opening the active file fails, [Write] returns 0
    bytes and the error of the open.  The failed call leaves FileInfo,
    LastCreated, BytesWritten and the configured fields as they were, and
    overwrites [fullName] and [rotateName] with the paths computed for the
    failed attempt.  So a failed first open keeps no handle, and after a
    failed reopen during a rotation FileInfo still is the old handle, which
    the rotation has closed. *)
Theorem C8_failed_open_keeps_counters_not_names :
  (forall l w b e,
      FileInfo l = None -> logFilter l b = true ->
      open_result (env w) (S (S (calls w))) (active_path (env w) l) = inr e ->
      Write b (l, w)
      = ((0%Z, Some e),
         (with_paths (env w) l (time_of_check w),
          emit (emit (tick (emit w [EvLock]) (time_of_check w))
                  [EvOpenFile (active_path (env w) l) (inr e)]) [EvUnlock])))
  /\ (forall l w b h evs path e,
        FileInfo l = Some h -> logFilter l b = true ->
        trace (snd (after b (l, w))) = (trace w ++ evs)%list ->
        In (EvOpenFile path (inr e)) evs ->
        fst (Write b (l, w)) = (0%Z, Some e)
        /\ exists t, fst (after b (l, w)) = with_paths (env w) l t)
  /\ (forall e l t,
        FileInfo (with_paths e l t) = FileInfo l
        /\ LastCreated (with_paths e l t) = LastCreated l
        /\ BytesWritten (with_paths e l t) = BytesWritten l
        /\ fullName (with_paths e l t) = active_path e l
        /\ rotateName (with_paths e l t) = rotated_path e l t
        /\ set_rotateName (set_fullName (with_paths e l t) (fullName l))
             (rotateName l) = l).
Proof.
  split; [|split].
  - intros l w b e Hn Hacc Ho.
    rewrite (Write_accepted l w b Hacc).
    rewrite (Write_locked_lazy l (emit w [EvLock]) b Hn).
    cbn [env calls emit]. rewrite Ho. reflexivity.
  - intros l w b h evs path e Hh Hacc Ht Hin.
    destruct (rotation_due l (time.Sub (time_of_check w) (LastCreated l)))
      eqn:Hdue.
    + destruct (Write_rotating_outcome l w b h Hh Hacc Hdue)
        as (rc & rr & evs' & ro & tail & t & Ht' & Hf & _ & _ & Hro).
      unfold after in Ht. rewrite Ht' in Ht. apply app_inv_head in Ht.
      subst evs.
      cbn [app] in Hin.
      destruct Hin as [H | [H | [H | [H | Hin]]]]; try discriminate.
      apply in_app_or in Hin. destruct Hin as [Hin | [H | Hin]].
      * rewrite Forall_forall in Hf. specialize (Hf _ Hin). discriminate.
      * injection H as _ ->. destruct Hro as (_ & Hr & Hl).
        split; [exact Hr|]. exists t. exact Hl.
      * destruct ro as [f|e'].
        -- destruct Hro as (n & err & -> & _).
           destruct Hin as [H | [H | []]]; discriminate.
        -- destruct Hro as (-> & _). destruct Hin as [H | []]; discriminate.
    + unfold after in Ht. unfold time_of_check in Hdue.
      rewrite (Write_steady l w b h Hh Hacc Hdue) in Ht.
      cbn [snd trace emit tick] in Ht. rewrite <- !app_assoc in Ht.
      apply app_inv_head in Ht. subst evs.
      destruct Hin as [H | [H | [H | []]]]; discriminate.
  - intros e l t. destruct l. repeat split.
Qed.

Lemma C8_failed_open_witness :
  FileInfo fresh_writer = None
  /\ logFilter fresh_writer (record 5) = true
  /\ open_result (env (start locked_dir 0%Z)) 2
       (active_path (env (start locked_dir 0%Z)) fresh_writer) = inr (Errno 13)
  /\ fst (Write (record 5) (fresh_writer, start locked_dir 0%Z))
     = (0%Z, Some (Errno 13))
  /\ FileInfo (fst (after (record 5) (fresh_writer, start locked_dir 0%Z))) = None.
Proof.
  do 3 (split; [vm_compute; reflexivity|]).
  unfold after.
  rewrite (proj1 C8_failed_open_keeps_counters_not_names
             fresh_writer (start locked_dir 0%Z) (record 5) (Errno 13));
    [split; reflexivity | vm_compute; reflexivity ..].
Defined.

(** C9.  Count-based pruning is never part of a [Write] or of a rotation:
    [pruneFiles] begins with a [Glob] whenever MaxFiles is not 0, and no
    call of [Write] and no rotation makes one; what [Write] does is the
    same for every value of MaxFiles.  Called on its own, [pruneFiles] does
    nothing when MaxFiles = 0.  When MaxFiles > 0 it lists the files that
    match the name pattern and removes the first (number of matches -
    MaxFiles) of them in the order of the listing, stopping with the error
    at a removal that fails. *)
Theorem C9_count_based_pruning_stands_alone :
  (forall l w b,
      exists evs,
        trace (snd (after b (l, w))) = (trace w ++ evs)%list
        /\ Forall (fun ev => is_EvGlob ev = false) evs)
  /\ (forall l w h,
        FileInfo l = Some h ->
        exists evs,
          trace (snd (snd (rotate (l, w)))) = (trace w ++ evs)%list
          /\ Forall (fun ev => is_EvGlob ev = false) evs)
  /\ (forall l w b m,
        Write b (set_MaxFiles l m, w)
        = (fst (Write b (l, w)),
           (set_MaxFiles (fst (after b (l, w))) m, snd (after b (l, w)))))
  /\ (forall l w,
        MaxFiles l <> 0%Z ->
        exists r w' evs,
          pruneFiles (l, w) = (r, (l, w'))
          /\ trace w' = (trace w ++ EvGlob (globExpression (env w) l) :: evs)%list)
  /\ (forall l w,
        MaxFiles l = 0%Z -> pruneFiles (l, w) = (Returned None, (l, w)))
  /\ (forall l w matches,
        (0 < MaxFiles l < 2 ^ 63)%Z ->
        (Z.of_nat (List.length matches) < 2 ^ 63)%Z ->
        glob_result (env w) (calls w) (globExpression (env w) l) = inl matches ->
        let excess := List.length matches - Z.to_nat (MaxFiles l) in
        exists r w' k evs,
          pruneFiles (l, w) = (Returned r, (l, w'))
          /\ trace w' = (trace w ++ EvGlob (globExpression (env w) l) :: evs)%list
          /\ Forall (fun ev => is_EvRemove ev = true) evs
          /\ removed_paths evs = firstn k matches
          /\ k <= excess
          /\ (r = None -> k = excess)
          /\ ((forall j p, remove_result (env w) j p = None) -> r = None)).
Proof.
  split; [|split; [|split; [|split; [|split]]]].
  - intros l w b. destruct (Write_events l w b) as (evs & Ht & _ & Hg).
    exists evs. split; assumption.
  - intros l w h Hh.
    destruct (rotation_due l (time.Sub (reading w) (LastCreated l))) eqn:Hdue.
    + destruct (rotate_due l w h Hh Hdue) as (w2 & evs & E & _ & _ & Ht & Hf & _).
      rewrite (E l (rotates_like_refl l)), openNew_run.
      apply removals_only, removals_no_glob in Hf.
      destruct (open_result (env w2) (S (calls w2)) (active_path (env w2) l));
        cbn [snd trace emit tick]; rewrite Ht, <- !app_assoc;
        eexists; (split; [reflexivity|]);
        repeat (apply Forall_app; split); auto; repeat constructor.
    + rewrite (rotate_not_due l w Hdue). exists []. cbn [snd trace tick].
      rewrite app_nil_r. split; [reflexivity | constructor].
  - intros l w b m. apply Write_MaxFiles.
  - intros l w Hm. rewrite pruneFiles_run.
    apply Z.eqb_neq in Hm. rewrite Hm.
    destruct (glob_result (env w) (calls w) (globExpression (env w) l))
      as [matches|err].
    + destruct (prune_loop_events matches l
                  (Z.to_nat (wrap64 (Z.of_nat (List.length matches) - MaxFiles l)))
                  0 (emit w [EvGlob (globExpression (env w) l)]))
        as (r & w' & evs & E & Ht).
      exists r, w', evs. rewrite E, Ht. cbn [trace emit].
      rewrite <- app_assoc. split; reflexivity.
    + eexists _, _, []. split; reflexivity.
  - intros l w Hm. rewrite pruneFiles_run, Hm. reflexivity.
  - intros l w matches Hm Hlen Hg excess.
    rewrite pruneFiles_run, Hg.
    replace (MaxFiles l =? 0)%Z with false by (symmetry; apply Z.eqb_neq; lia).
    rewrite wrap64_small by (unfold in_int64; lia).
    replace (Z.to_nat (Z.of_nat (List.length matches) - MaxFiles l))
      with excess by (subst excess; lia).
    destruct (prune_loop_run matches l excess 0
                (emit w [EvGlob (globExpression (env w) l)]))
      as (r & w' & k & evs & E & He & Ht & Hf & Hp & Hk & Hn & Hall);
      [subst excess; lia|].
    exists r, w', k, evs. rewrite E, Ht. cbn [trace emit env] in *.
    rewrite <- app_assoc. repeat split; auto.
Qed.

Lemma C9_count_based_pruning_witness :
  (0 < MaxFiles (set_MaxFiles fresh_writer 1%Z) < 2 ^ 63)%Z
  /\ (Z.of_nat (List.length ["logs/app-1.log"; "logs/app-2.log"]) < 2 ^ 63)%Z
  /\ glob_result (calm (all_stale noon)) 0
       (globExpression (calm (all_stale noon)) (set_MaxFiles fresh_writer 1%Z))
     = inl ["logs/app-1.log"; "logs/app-2.log"]
  /\ exists w' evs,
       pruneFiles (set_MaxFiles fresh_writer 1%Z, start (calm (all_stale noon)) noon)
       = (Returned None, (set_MaxFiles fresh_writer 1%Z, w'))
       /\ removed_paths evs = ["logs/app-1.log"]
       /\ trace w' = ([] ++ EvGlob "logs/app*.log" :: evs)%list.
Proof.
  split; [vm_compute; split; reflexivity|].
  split; [vm_compute; reflexivity|].
  split; [vm_compute; reflexivity|].
  destruct (proj2 (proj2 (proj2 (proj2 (proj2 C9_count_based_pruning_stands_alone))))
              (set_MaxFiles fresh_writer 1%Z)
              (start (calm (all_stale noon)) noon)
              ["logs/app-1.log"; "logs/app-2.log"])
    as (r & w' & k & evs & E & Ht & _ & Hp & _ & Hn & Hall);
    [vm_compute; split; reflexivity | vm_compute; reflexivity
     | vm_compute; reflexivity |].
  assert (Hr : r = None) by (apply Hall; reflexivity).
  rewrite (Hn Hr) in Hp. subst r.
  exists w', evs. split; [exact E|]. split; [exact Hp | exact Ht].
Defined.
